(** * Format-type registration of the rich-text package

    A shallow embedding of [packages/rich-text/src/register-format-type.js]:
    the validation sequence of [registerFormatType], the registry it reads and
    writes through the [core/rich-text] store, the diagnostics it logs, and the
    memoized function-stack builder it creates for the editable-tree hooks.

    JavaScript values are an inductive type, objects are finite maps from
    property names to values, the two regular expressions are data matched by
    derivatives, and the effects of the function (console, store, filter
    pipeline, memoization caches, array heap, exceptions) are threaded through
    a small state-and-exception monad. *)

From Stdlib Require Import ZArith Ascii String List Bool Lia.
From stdpp Require Import base option gmap strings list fin_maps pretty.

(** ** JavaScript values *)

(** Strings are sequences of code units; the development covers code units
    below 256, one [ascii] each, so [String.length] is the [length] property.
    Numbers are the integer-valued ones that print in decimal.  A function
    value carries its identity, its number of formal parameters (its [length])
    and the source text [Function.prototype.toString] gives back.  Plain
    objects, symbols and properties with accessors as values are not
    covered. *)
#[warnings="-register-all"] Inductive value : Type :=
| VUndefined
| VNull
| VBool (b : bool)
| VNum (n : Z)
| VStr (s : string)
| VArr (elems : list value)
| VFun (id : nat) (arity : nat) (src : string).

Inductive jstype : Type :=
| TUndefined | TObject | TBoolean | TNumber | TString | TFunction.

#[global] Instance jstype_eq_dec : EqDecision jstype.
Proof. solve_decision. Defined.

(** The [typeof] operator ([typeof null] is ["object"], as for arrays). *)
Definition typeof (v : value) : jstype :=
  match v with
  | VUndefined => TUndefined
  | VNull => TObject
  | VBool _ => TBoolean
  | VNum _ => TNumber
  | VStr _ => TString
  | VArr _ => TObject
  | VFun _ _ _ => TFunction
  end.

(** [v === s] for a string literal [s]. *)
Definition strict_eq_str (v : value) (s : string) : bool :=
  match v with
  | VStr t => bool_decide (t = s)
  | _ => false
  end.

(** [v === null]. *)
Definition is_null (v : value) : bool :=
  match v with
  | VNull => true
  | _ => false
  end.

(** ToBoolean, the test of an [if]. *)
Definition truthy (v : value) : bool :=
  match v with
  | VUndefined | VNull => false
  | VBool b => b
  | VNum n => negb (n =? 0)%Z
  | VStr s => negb (bool_decide (s = EmptyString))
  | VArr _ | VFun _ _ _ => true
  end.

(** The ToString coercion, applied by [RegExp.prototype.test], by [+] on a
    string and by template literals.  An array is joined with commas, its
    [undefined] and [null] elements printing as nothing. *)
Fixpoint ToString (v : value) : string :=
  match v with
  | VUndefined => "undefined"
  | VNull => "null"
  | VBool true => "true"
  | VBool false => "false"
  | VNum n => pretty n
  | VStr s => s
  | VArr elems =>
      (fix join (l : list value) : string :=
         match l with
         | [] => EmptyString
         | x :: rest =>
             let text := match x with
                         | VUndefined | VNull => EmptyString
                         | _ => ToString x
                         end in
             match rest with
             | [] => text
             | _ :: _ => text +:+ "," +:+ join rest
             end
         end) elems
  | VFun _ _ src => src
  end.

(** ** Objects *)

(** An object is a finite map from property names to values. *)
Abbreviation obj := (gmap string value).

(** [o.k]: a missing property reads as [undefined]. *)
Definition getp (o : obj) (k : string) : value := default VUndefined (o !! k).

(** ['k' in o]. *)
Definition has (o : obj) (k : string) : bool := bool_decide (is_Some (o !! k)).

(** [{ name, ...settings }]: [name] is written first, then every property of
    [settings] is copied over it. *)
Definition spread_name (name : value) (settings : obj) : obj :=
  settings ∪ {[ "name" := name ]}.

(** [v.length].  [undefined] and [null] have no properties, reading one raises
    a TypeError ([None]); a string, an array and a function have a length; on
    the other values the property is missing ([Some None]). *)
Definition length_of (v : value) : option (option nat) :=
  match v with
  | VUndefined | VNull => None
  | VStr s => Some (Some (String.length s))
  | VArr elems => Some (Some (length elems))
  | VFun _ arity _ => Some (Some arity)
  | VBool _ | VNum _ => Some None
  end.

(** [len > 3], where a missing length is [undefined] and compares as NaN. *)
Definition gt3 (len : option nat) : bool :=
  match len with
  | Some n => 3 <? n
  | None => false
  end.

(** ** Regular expressions *)

Module Regex.

Inductive regex : Type :=
| Void
| Eps
| Cls (p : ascii -> bool)
| Seq (r1 r2 : regex)
| Alt (r1 r2 : regex)
| Star (r : regex).

(** [r+] *)
Definition Plus (r : regex) : regex := Seq r (Star r).

Fixpoint nullable (r : regex) : bool :=
  match r with
  | Void => false
  | Eps => true
  | Cls _ => false
  | Seq r1 r2 => nullable r1 && nullable r2
  | Alt r1 r2 => nullable r1 || nullable r2
  | Star _ => true
  end.

Fixpoint deriv (a : ascii) (r : regex) : regex :=
  match r with
  | Void => Void
  | Eps => Void
  | Cls p => if p a then Eps else Void
  | Seq r1 r2 =>
      if nullable r1
      then Alt (Seq (deriv a r1) r2) (deriv a r2)
      else Seq (deriv a r1) r2
  | Alt r1 r2 => Alt (deriv a r1) (deriv a r2)
  | Star r0 => Seq (deriv a r0) (Star r0)
  end.

(** [/^r$/.test(s)]: the whole of [s] matches [r]. *)
Fixpoint test (r : regex) (s : string) : bool :=
  match s with
  | EmptyString => nullable r
  | String a s' => test (deriv a r) s'
  end.

(** The language of a regular expression. *)
Inductive lang : regex -> string -> Prop :=
| lang_eps : lang Eps EmptyString
| lang_cls p a : p a = true -> lang (Cls p) (String a EmptyString)
| lang_seq r1 r2 s1 s2 : lang r1 s1 -> lang r2 s2 -> lang (Seq r1 r2) (s1 +:+ s2)
| lang_alt_l r1 r2 s : lang r1 s -> lang (Alt r1 r2) s
| lang_alt_r r1 r2 s : lang r2 s -> lang (Alt r1 r2) s
| lang_star_nil r : lang (Star r) EmptyString
| lang_star_cons r s1 s2 :
    lang r s1 -> lang (Star r) s2 -> lang (Star r) (s1 +:+ s2).

(** Every character of [s] satisfies [p]. *)
Fixpoint all_chars (p : ascii -> bool) (s : string) : bool :=
  match s with
  | EmptyString => true
  | String a s' => p a && all_chars p s'
  end.

Definition in_range (lo hi c : ascii) : bool :=
  (N_of_ascii lo <=? N_of_ascii c)%N && (N_of_ascii c <=? N_of_ascii hi)%N.

Definition lower (c : ascii) : bool := in_range "a"%char "z"%char c.
Definition upper (c : ascii) : bool := in_range "A"%char "Z"%char c.
Definition digit (c : ascii) : bool := in_range "0"%char "9"%char c.
Definition is_char (x c : ascii) : bool := bool_decide (c = x).

(** [[a-z0-9-]] *)
Definition lower_digit_dash (c : ascii) : bool :=
  lower c || digit c || is_char "-"%char c.
(** [[_a-zA-Z]] *)
Definition underscore_alpha (c : ascii) : bool :=
  is_char "_"%char c || lower c || upper c.
(** [[a-zA-Z0-9-]] *)
Definition alnum_dash (c : ascii) : bool :=
  lower c || upper c || digit c || is_char "-"%char c.

(** The strings of the shape [[a-z][a-z0-9-]*]: a namespace or a slug. *)
Definition slug (s : string) : Prop :=
  exists c rest, s = String c rest /\ lower c = true
    /\ all_chars lower_digit_dash rest = true.

End Regex.

(** [/^[a-z][a-z0-9-]*\/[a-z][a-z0-9-]*$/] *)
Definition name_pattern : Regex.regex :=
  Regex.Seq (Regex.Cls Regex.lower)
    (Regex.Seq (Regex.Star (Regex.Cls Regex.lower_digit_dash))
       (Regex.Seq (Regex.Cls (Regex.is_char "/"%char))
          (Regex.Seq (Regex.Cls Regex.lower)
             (Regex.Star (Regex.Cls Regex.lower_digit_dash))))).

(** [/^[_a-zA-Z]+[a-zA-Z0-9-]*$/] *)
Definition class_pattern : Regex.regex :=
  Regex.Seq (Regex.Plus (Regex.Cls Regex.underscore_alpha))
    (Regex.Star (Regex.Cls Regex.alnum_dash)).

(** ** The world the function runs in *)

(** The selectors and the action of the [core/rich-text] store that the
    function calls through [select] and [dispatch].  A selector gives back a
    registered descriptor or nothing. *)
Class RichTextStore (S : Type) : Type := {
  getFormatType : S -> string -> option obj;
  getFormatTypeForBareElement : S -> string -> option obj;
  getFormatTypeForClassName : S -> string -> option obj;
  addFormatTypes : obj -> S -> S
}.

(** A call [getFunctionStackMemoized( previousStack, newFunction )]: the
    first argument is [undefined] or a reference to an array, the second the
    identity of a function. *)
Abbreviation memo_key := (option nat * nat)%type.

(** The cache of one memoized function: the argument lists seen and the array
    returned for each, most recently used first. *)
Abbreviation memo_cache := (list (memo_key * nat)).

(** An entry of the filter pipeline.  The component wrapper installed by
    [registerFormatType] is a closure; it is kept as what it captures: the
    [name] argument, the descriptor and the memoized stack builder. *)
Record filter : Type := Filter {
  hookName : string;
  namespace : value;
  captured_settings : obj;
  captured_memo : nat
}.

Record world (S : Type) : Type := World {
  registry : S;
  console : list string;
  filters : list filter;
  memos : list memo_cache;
  heap : list (list nat)
}.
Arguments World {S}.
Arguments registry {S}.
Arguments console {S}.
Arguments filters {S}.
Arguments memos {S}.
Arguments heap {S}.

Inductive exn : Type :=
| TypeError (what : string).

Inductive outcome (A : Type) : Type :=
| Returned (a : A)
| Threw (e : exn).
Arguments Returned {A}.
Arguments Threw {A}.

(** A computation reads and updates the world and returns or throws. *)
Definition M (S A : Type) : Type := world S -> outcome A * world S.

#[global] Instance M_ret {S} : MRet (M S) := fun A a w => (Returned a, w).

#[global] Instance M_bind {S} : MBind (M S) := fun A B k m w =>
  match m w with
  | (Returned a, w') => k a w'
  | (Threw e, w') => (Threw e, w')
  end.

Definition throw {S A} (e : exn) : M S A := fun w => (Threw e, w).

(** [window.console.error( msg )] *)
Definition console_error {S} (msg : string) : M S unit := fun w =>
  (Returned tt,
   World (registry w) (console w ++ [msg]) (filters w) (memos w) (heap w)).

(** Modelled from the spec: [select( 'core/rich-text' ).sel( ... )] of the
    data package, which is not part of this file, reads the registry. *)
Definition select {S A} (sel : S -> A) : M S A := fun w =>
  (Returned (sel (registry w)), w).

(** Modelled from the spec: [dispatch( 'core/rich-text' ).act( ... )] of the
    data package, which is not part of this file, writes the registry. *)
Definition dispatch {S} (act : S -> S) : M S unit := fun w =>
  (Returned tt,
   World (act (registry w)) (console w) (filters w) (memos w) (heap w)).

(** Modelled from the spec: [addFilter( hook, namespace, transform )] of the
    hooks package, which is not part of this file, installs a named entry
    into the filter pipeline; here for a [transform] that closes over
    [settings] and [memo].  The entry goes last, whatever its namespace: the
    checks the pipeline makes of a hook name and a namespace are not part of
    this model, which stands for the pipeline only where the namespace is a
    string that matches the name pattern. *)
Definition addFilter {S} (hook : string) (ns : value) (settings : obj)
    (memo : nat) : M S unit := fun w =>
  (Returned tt,
   World (registry w) (console w) (filters w ++ [Filter hook ns settings memo])
     (memos w) (heap w)).

(** [memize( fn )]: a new memoized function with its own, empty cache. *)
Definition memize {S} : M S nat := fun w =>
  (Returned (length (memos w)),
   World (registry w) (console w) (filters w) (memos w ++ [[]]) (heap w)).

(** The module-level [EMPTY_ARRAY], allocated when the module is loaded. *)
Definition EMPTY_ARRAY : nat := 0.

(** The world after the module is loaded over a store in state [st]. *)
Definition init_world {S} (st : S) : world S := World st [] [] [] [[]].

(** ** Diagnostics *)

(** The double-quote character inside a message. *)
Definition dq : string := String "034"%char EmptyString.

Definition msg_name_type : string := "Format names must be strings.".
Definition msg_name_pattern : string :=
  "Format names must contain a namespace prefix, include only lowercase alphanumeric characters or dashes, and start with a letter. Example: my-plugin/my-custom-format".
Definition msg_registered (name : value) : string :=
  "Format " +:+ dq +:+ ToString name +:+ dq +:+ " is already registered.".
Definition msg_tag_name : string := "Format tag names must be a string.".
Definition msg_class_type : string :=
  "Format class names must be a string, or null to handle bare elements.".
Definition msg_class_pattern : string :=
  "A class name must begin with a letter, followed by any number of hyphens, letters, or numbers.".
Definition msg_bare (found : obj) (tagName : value) : string :=
  "Format " +:+ dq +:+ ToString (getp found "name") +:+ dq +:+
  " is already registered to handle bare tag name " +:+ dq +:+
  ToString tagName +:+ dq +:+ ".".
Definition msg_class (found : obj) (className : value) : string :=
  "Format " +:+ dq +:+ ToString (getp found "name") +:+ dq +:+
  " is already registered to handle class name " +:+ dq +:+
  ToString className +:+ dq +:+ ".".
Definition msg_title (name : value) : string :=
  "The format " +:+ dq +:+ ToString name +:+ dq +:+ " must have a title.".
Definition msg_keywords (name : value) : string :=
  "The format " +:+ dq +:+ ToString name +:+ dq +:+
  " can have a maximum of 3 keywords.".
Definition msg_title_type : string := "Format titles must be strings.".

(** Reading [length] of [undefined] or [null]. *)
Definition no_length : exn := TypeError "Cannot read property 'length'".

(** ** registerFormatType *)

Section Registration.
Context {S : Type} `{RichTextStore S}.

(** [typeof v !== t] *)
Definition typeof_is_not (v : value) (t : jstype) : bool :=
  negb (bool_decide (typeof v = t)).

(** [settings.keywords.length > 3] *)
Definition keywords_too_long (settings : obj) : M S bool :=
  match length_of (getp settings "keywords") with
  | Some len => mret (gt3 len)
  | None => throw no_length
  end.

(** [window.console.error( msg ); return;] *)
Definition reject (msg : string) : M S (option obj) :=
  console_error msg;; mret None.

(** Lines 125 to 219: what follows the uniqueness checks. *)
Definition register_checked (name : value) (settings : obj)
    : M S (option obj) :=
  if negb (has settings "title")
     || strict_eq_str (getp settings "title") EmptyString then
    reject (msg_title (getp settings "name"))
  else
  too_long ← (if has settings "keywords" then keywords_too_long settings
              else mret false);
  if too_long : bool then
    reject (msg_keywords (getp settings "name"))
  else if typeof_is_not (getp settings "title") TString then
    reject msg_title_type
  else
  dispatch (addFormatTypes settings);;
  getFunctionStackMemoized ← memize;
  (if truthy (getp settings "__experimentalCreatePrepareEditableTree") then
     addFilter "experimentalRichText" name settings getFunctionStackMemoized
   else mret tt);;
  mret (Some settings).

(** The function returns the descriptor ([Some]) or [undefined] ([None]). *)
Definition registerFormatType (name : value) (settings0 : obj)
    : M S (option obj) :=
  let settings := spread_name name settings0 in
  if typeof_is_not (getp settings "name") TString then
    reject msg_name_type
  else if negb (Regex.test name_pattern (ToString (getp settings "name"))) then
    reject msg_name_pattern
  else
  existing ← select (fun st => getFormatType st (ToString (getp settings "name")));
  if bool_decide (is_Some (existing : option obj)) then
    reject (msg_registered (getp settings "name"))
  else if typeof_is_not (getp settings "tagName") TString
          || strict_eq_str (getp settings "tagName") EmptyString then
    reject msg_tag_name
  else if (typeof_is_not (getp settings "className") TString
           || strict_eq_str (getp settings "className") EmptyString)
          && negb (is_null (getp settings "className")) then
    reject msg_class_type
  else if negb (Regex.test class_pattern (ToString (getp settings "className"))) then
    reject msg_class_pattern
  else if is_null (getp settings "className") then
    formatTypeForBareElement ← select (fun st =>
      getFormatTypeForBareElement st (ToString (getp settings "tagName")));
    match formatTypeForBareElement with
    | Some found => reject (msg_bare found (getp settings "tagName"))
    | None => register_checked name settings
    end
  else
    formatTypeForClassName ← select (fun st =>
      getFormatTypeForClassName st (ToString (getp settings "className")));
    match formatTypeForClassName with
    | Some found => reject (msg_class found (getp settings "className"))
    | None => register_checked name settings
    end.

End Registration.

(** ** The memoized function-stack builder *)

Section FunctionStack.
Context {S : Type}.

(** The search of memize through the cache of a memoized function: the
    value stored for the arguments [k] and the other nodes, in order. *)
Fixpoint memo_lookup (k : memo_key) (c : memo_cache)
    : option (nat * memo_cache) :=
  match c with
  | [] => None
  | (k', v) :: rest =>
      if decide (k' = k) then Some (v, rest)
      else match memo_lookup k rest with
           | Some (v', rest') => Some (v', (k', v) :: rest')
           | None => None
           end
  end.

(** The elements [...previousStack] spreads: [previousStack] defaults to
    [EMPTY_ARRAY] when it is [undefined]; a reference that is no array of
    the heap is not iterable. *)
Definition stack_contents (h : list (list nat)) (previousStack : option nat)
    : option (list nat) :=
  h !! default EMPTY_ARRAY previousStack.

(** [( previousStack = EMPTY_ARRAY, newFunction ) =>
    [ ...previousStack, newFunction ]]: a new array is allocated. *)
Definition function_stack (previousStack : option nat) (newFunction : nat)
    : M S nat := fun w =>
  match stack_contents (heap w) previousStack with
  | Some elems =>
      (Returned (length (heap w)),
       World (registry w) (console w) (filters w) (memos w)
         (heap w ++ [elems ++ [newFunction]]))
  | None => (Threw (TypeError "previousStack is not iterable"), w)
  end.

(** Replaces the cache of the memoized function [m]. *)
Definition set_cache (m : nat) (c : memo_cache) : M S unit := fun w =>
  (Returned tt,
   World (registry w) (console w) (filters w) (<[m := c]> (memos w)) (heap w)).

(** A call of the memoized function [m] that [memize] returned.  A hit moves
    its node to the head of the cache and returns the stored array; a miss
    runs the function and stores the result at the head.  No size limit was
    given to [memize], so no node is ever dropped. *)
Definition getFunctionStackMemoized (m : nat) (previousStack : option nat)
    (newFunction : nat) : M S nat := fun w =>
  match memos w !! m with
  | None => (Threw (TypeError "getFunctionStackMemoized is not a function"), w)
  | Some c =>
      match memo_lookup (previousStack, newFunction) c with
      | Some (val, others) =>
          (set_cache m ((previousStack, newFunction, val) :: others);;
           mret val) w
      | None =>
          (val ← function_stack previousStack newFunction;
           set_cache m ((previousStack, newFunction, val) :: c);;
           mret val) w
      end
  end.

End FunctionStack.

(** ** Runs of the program *)

(** What the rest of the application does with this module: it registers
    format types and, when a wrapped component renders, calls the stack
    builder that a registration created. *)
Inductive op : Type :=
| Register (name : value) (settings : obj)
| Build (m : nat) (previousStack : option nat) (newFunction : nat).

Section Runs.
Context {S : Type} `{RichTextStore S}.

(** The world after one operation, whatever it returned or threw. *)
Definition exec (o : op) (w : world S) : world S :=
  match o with
  | Register name settings => snd (registerFormatType name settings w)
  | Build m previousStack newFunction =>
      snd (getFunctionStackMemoized m previousStack newFunction w)
  end.

Definition run (ops : list op) (w : world S) : world S :=
  fold_left (fun w o => exec o w) ops w.

End Runs.

(** ** The store, from its description *)

(** Modelled from the spec: the registry of the [core/rich-text] store, whose
    reducer and selectors are not part of this file.  The spec describes it as
    a key-value store keyed by descriptor [name]: [getFormatType] reads by
    key, [addFormatTypes] writes under the descriptor's [name],
    [getFormatTypeForBareElement] finds a registered descriptor that claims
    the tag as a bare-element handler ([className] is [null]), and
    [getFormatTypeForClassName] one that claims that exact class name. *)
Definition claims_bare_element (tagName : string) (d : obj) : bool :=
  is_null (getp d "className") && strict_eq_str (getp d "tagName") tagName.

(** Modelled from the spec: a descriptor claims a class name when its
    [className] is that exact string. *)
Definition claims_class_name (className : string) (d : obj) : bool :=
  strict_eq_str (getp d "className") className.

(** Modelled from the spec: the store as a map from names to descriptors,
    with the three selectors and the action described above. *)
#[global] Instance spec_store : RichTextStore (gmap string obj) := {|
  getFormatType st name := st !! name;
  getFormatTypeForBareElement st tagName :=
    List.find (claims_bare_element tagName) (snd <$> map_to_list st);
  getFormatTypeForClassName st className :=
    List.find (claims_class_name className) (snd <$> map_to_list st);
  addFormatTypes d st := <[ ToString (getp d "name") := d ]> st
|}.

(** ** The validation rules, as the specification words them *)

Section Rules.
Context {S : Type} `{RichTextStore S}.

(** 1. [name] must be a string. *)
Definition rule1 (d : obj) : bool :=
  bool_decide (typeof (getp d "name") = TString).

(** 2. [name] must match the namespace/slug pattern. *)
Definition rule2 (d : obj) : bool :=
  match getp d "name" with
  | VStr s => Regex.test name_pattern s
  | _ => false
  end.

(** 3. [name] must not already exist in the registry. *)
Definition rule3 (st : S) (d : obj) : bool :=
  negb (bool_decide (is_Some (getFormatType st (ToString (getp d "name"))))).

(** 4. [tagName] must be a non-empty string. *)
Definition rule4 (d : obj) : bool :=
  match getp d "tagName" with
  | VStr s => negb (bool_decide (s = EmptyString))
  | _ => false
  end.

(** 5. [className] must be a non-empty string, or the none sentinel. *)
Definition rule5 (d : obj) : bool :=
  match getp d "className" with
  | VStr s => negb (bool_decide (s = EmptyString))
  | VNull => true
  | _ => false
  end.

(** 6. If [className] is a real string, it must match the class pattern. *)
Definition rule6 (d : obj) : bool :=
  match getp d "className" with
  | VStr s => Regex.test class_pattern s
  | _ => true
  end.

(** 7. If [className] is the none sentinel, no registered descriptor may
    already claim the same [tagName] as a bare-element handler. *)
Definition rule7 (st : S) (d : obj) : bool :=
  match getp d "className" with
  | VNull =>
      negb (bool_decide (is_Some
        (getFormatTypeForBareElement st (ToString (getp d "tagName")))))
  | _ => true
  end.

(** 8. If [className] is a real string, no registered descriptor may
    already claim that exact class name. *)
Definition rule8 (st : S) (d : obj) : bool :=
  match getp d "className" with
  | VStr s => negb (bool_decide (is_Some (getFormatTypeForClassName st s)))
  | _ => true
  end.

(** 9. [title] must be present and non-empty. *)
Definition rule9 (d : obj) : bool :=
  match d !! "title" with
  | Some (VStr s) => negb (bool_decide (s = EmptyString))
  | Some _ => true
  | None => false
  end.

(** 10. If [keywords] is present, its length must not exceed 3. *)
Definition rule10 (d : obj) : bool :=
  match d !! "keywords" with
  | Some v =>
      match length_of v with
      | Some (Some n) => n <=? 3
      | _ => true
      end
  | None => true
  end.

(** 11. [title] must be a string. *)
Definition rule11 (d : obj) : bool :=
  bool_decide (typeof (getp d "title") = TString).

(** The rules in the stated order. *)
Definition rules (st : S) (d : obj) : list bool :=
  [rule1 d; rule2 d; rule3 st d; rule4 d; rule5 d; rule6 d; rule7 st d;
   rule8 st d; rule9 d; rule10 d; rule11 d].

(** The number of the first rule that fails, counting from [from]. *)
Fixpoint first_failing_from (from : nat) (checks : list bool) : option nat :=
  match checks with
  | [] => None
  | true :: rest => first_failing_from (Datatypes.S from) rest
  | false :: _ => Some from
  end.

Definition first_failing (st : S) (d : obj) : option nat :=
  first_failing_from 1 (rules st d).

(** The diagnostic the function logs for each rule. *)
Definition diagnostic (st : S) (d : obj) (k : nat) : string :=
  match k with
  | 1 => msg_name_type
  | 2 => msg_name_pattern
  | 3 => msg_registered (getp d "name")
  | 4 => msg_tag_name
  | 5 => msg_class_type
  | 6 => msg_class_pattern
  | 7 => from_option (fun found => msg_bare found (getp d "tagName"))
           EmptyString
           (getFormatTypeForBareElement st (ToString (getp d "tagName")))
  | 8 => from_option (fun found => msg_class found (getp d "className"))
           EmptyString
           (getFormatTypeForClassName st (ToString (getp d "className")))
  | 9 => msg_title (getp d "name")
  | 10 => msg_keywords (getp d "name")
  | _ => msg_title_type
  end.

(** The first [n] rules pass. *)
Definition passes_first (n : nat) (st : S) (d : obj) : bool :=
  forallb (fun b : bool => b) (take n (rules st d)).

(** Every rule but rule [k] passes: the descriptor is otherwise valid. *)
Definition passes_all_but (k : nat) (st : S) (d : obj) : bool :=
  forallb (fun b : bool => b) (delete (k - 1) (rules st d)).

(** [keywords] is absent, or a value whose [length] can be read. *)
Definition keywords_readable (d : obj) : bool :=
  match d !! "keywords" with
  | Some v => bool_decide (is_Some (length_of v))
  | None => true
  end.

(** What the rules prescribe for a descriptor: rejection by the first rule
    that fails, or acceptance.  Rules 10 and 11 are only reached when the
    length of [keywords] can be read. *)
Inductive verdict : Type :=
| Rejected (k : nat)
| Raised
| Accepted.

Definition verdict_of (st : S) (d : obj) : verdict :=
  match first_failing_from 1 (take 9 (rules st d)) with
  | Some k => Rejected k
  | None =>
      if negb (keywords_readable d) then Raised
      else if negb (rule10 d) then Rejected 10
      else if negb (rule11 d) then Rejected 11
      else Accepted
  end.

(** The world after a diagnostic has been logged. *)
Definition logged (msg : string) (w : world S) : world S :=
  World (registry w) (console w ++ [msg]) (filters w) (memos w) (heap w).

(** The world after the descriptor [d] has been registered by a call whose
    first argument was [name]. *)
Definition committed (name : value) (d : obj) (w : world S) : world S :=
  World (addFormatTypes d (registry w)) (console w)
    (if truthy (getp d "__experimentalCreatePrepareEditableTree")
     then filters w ++ [Filter "experimentalRichText" name d (length (memos w))]
     else filters w)
    (memos w ++ [[]]) (heap w).

End Rules.

(** ** What holds of the caches in every reachable world *)

Section Invariant.
Context {S : Type}.

(** A cache agrees with the heap [h]: no argument list and no array occurs
    twice, and each stored array holds the elements of its [previousStack]
    followed by its [newFunction]. *)
Definition cache_ok (h : list (list nat)) (c : memo_cache) : Prop :=
  NoDup c.*1 /\ NoDup c.*2
  /\ forall previousStack newFunction r,
       (previousStack, newFunction, r) ∈ c ->
       exists elems, stack_contents h previousStack = Some elems
                     /\ h !! r = Some (elems ++ [newFunction]).

Definition memo_wf (w : world S) : Prop :=
  forall m c, memos w !! m = Some c -> cache_ok (heap w) c.

(** Every argument list in a cache was passed to that cache's builder. *)
Definition memo_seen (ops : list op) (w : world S) : Prop :=
  forall m c k, memos w !! m = Some c -> k ∈ c.*1 -> Build m k.1 k.2 ∈ ops.

End Invariant.

(** ** getPropsByPrefix and the props of a wrapped component *)

(** [key.startsWith( prefix )] *)
Fixpoint startsWith (key prefix : string) {struct prefix} : bool :=
  match prefix with
  | EmptyString => true
  | String p prefix' =>
      match key with
      | EmptyString => false
      | String c key' => bool_decide (c = p) && startsWith key' prefix'
      end
  end.

(** [key.slice( start )]: what follows the first [start] code units. *)
Fixpoint slice (key : string) (start : nat) {struct start} : string :=
  match start with
  | 0 => key
  | Datatypes.S start' =>
      match key with
      | EmptyString => EmptyString
      | String _ key' => slice key' start'
      end
  end.

(** The values that are objects or [null]. *)
Definition is_object_or_null (v : value) : bool :=
  match typeof v with
  | TObject | TFunction => true
  | _ => false
  end.

(** [accumulator[ k ] = v] on a plain object gives it the own property [k],
    except for the key [__proto__], which reaches the accessor of
    [Object.prototype] and makes no own property: a primitive [v] is ignored,
    an object or [null] replaces the prototype of the accumulator, which is
    outside what an object as a map of own properties can say ([None]). *)
Definition assign (o : obj) (k : string) (v : value) : option obj :=
  if decide (k = "__proto__") then
    if is_object_or_null v then None else Some o
  else Some (<[k := v]> o).

(** The reducer of [getPropsByPrefix]. *)
Definition pick_prefixed (props : obj) (prefix : string)
    (accumulator : option obj) (key : string) : option obj :=
  acc ← accumulator;
  if startsWith key prefix
  then assign acc (slice key (String.length prefix)) (getp props key)
  else Some acc.

(** [keys.reduce( ..., {} )] for a list [keys] of property names. *)
Definition getPropsByPrefix_over (keys : list string) (props : obj)
    (prefix : string) : option obj :=
  fold_left (pick_prefixed props prefix) keys (Some ∅).

(** [getPropsByPrefix( props, prefix )], over [Object.keys( props )]. *)
Definition getPropsByPrefix (props : obj) (prefix : string) : option obj :=
  getPropsByPrefix_over (map_to_list props).*1 props prefix.

(** [`format_value_(${ name })_`] *)
Definition selectPrefix (name : value) : string :=
  "format_value_(" +:+ ToString name +:+ ")_".

(** [`format_on_change_(${ name })_`] *)
Definition dispatchPrefix (name : value) : string :=
  "format_on_change_(" +:+ ToString name +:+ ")_".

(** [mapKeys( o, ( value, key ) => prefix + key )] of lodash: the same
    values under the prefixed keys. *)
Definition mapKeys_prefix (prefix : string) (o : obj) : obj :=
  list_to_map (prod_map (String.append prefix) id <$> map_to_list o).

(** The first argument of [__experimentalCreatePrepareEditableTree] on line
    167. *)
Definition prepare_props (name : value) (props : obj) : option obj :=
  getPropsByPrefix props (selectPrefix name).

(** The first argument of [__experimentalCreateOnChangeEditableValue] on
    lines 176 to 179: the second spread writes over the first. *)
Definition change_props (name : value) (props : obj) : option obj :=
  selected ← getPropsByPrefix props (selectPrefix name);
  dispatched ← getPropsByPrefix props (dispatchPrefix name);
  Some (dispatched ∪ selected).

Section Chain.
Context {S : Type}.

(** The [prepareEditableTree] prop on its way through the wrappers of several
    formats, outermost first: the wrapper of a format calls its own memoized
    builder [m] on the stack it received and the function [f] its hook
    returned, and hands the result to the component it wraps. *)
Fixpoint build_chain (steps : list (nat * nat)) (stack : option nat)
    : M S (option nat) :=
  match steps with
  | [] => mret stack
  | (m, f) :: rest =>
      r ← getFunctionStackMemoized m stack f;
      build_chain rest (Some r)
  end.

(** The array [r] is what the cache of builder [m] holds for the arguments
    [k]. *)
Definition cached (w : world S) (m : nat) (k : memo_key) (r : nat) : Prop :=
  exists c, memos w !! m = Some c /\ (k, r) ∈ c.

(** Every call of a chain is in the cache of its builder. *)
Fixpoint chain_cached (w : world S) (steps : list (nat * nat))
    (stack final : option nat) : Prop :=
  match steps with
  | [] => final = stack
  | (m, f) :: rest =>
      exists r, cached w m (stack, f) r /\ chain_cached w rest (Some r) final
  end.

End Chain.

(** ** The component wrapper *)


Section Wrapper.
Context {S : Type}.


(** Every installed wrapper belongs to a registration that had the
    tree-preparation hook, and owns a cache that exists. *)
Definition filters_ok (w : world S) : Prop :=
  (forall flt, flt ∈ filters w ->
     hookName flt = "experimentalRichText"
     /\ truthy (getp (captured_settings flt)
                  "__experimentalCreatePrepareEditableTree") = true
     /\ captured_memo flt < length (memos w))
  /\ NoDup (captured_memo <$> filters w).

End Wrapper.

(** Whether an operation is a call of the builder [m]. *)
Definition calls_builder (m : nat) (o : op) : bool :=
  match o with
  | Build m' _ _ => bool_decide (m' = m)
  | Register _ _ => false
  end.

(** Any character but the closing parenthesis that ends the name inside a
    prefix. *)
Definition not_paren (c : ascii) : bool := negb (Regex.is_char ")"%char c).

(** ** What holds of the registry in every reachable world *)

(** The descriptor passes the rules that do not consult the registry. *)
Definition well_formed_descriptor (d : obj) : Prop :=
  rule1 d = true /\ rule2 d = true /\ rule4 d = true /\ rule5 d = true
  /\ rule6 d = true /\ rule9 d = true /\ rule11 d = true.

(** Every descriptor is well formed and stored under its own name, no two
    descriptors handle the same bare tag, no two the same class name. *)
Definition registry_ok (st : gmap string obj) : Prop :=
  (forall n d, st !! n = Some d ->
     getp d "name" = VStr n /\ well_formed_descriptor d)
  /\ (forall n1 n2 d1 d2, st !! n1 = Some d1 -> st !! n2 = Some d2 ->
        getp d1 "className" = getp d2 "className" ->
        (getp d1 "className" = VNull -> getp d1 "tagName" = getp d2 "tagName") ->
        n1 = n2).

(** ** Runs that register under the name argument *)

(** The registrations of a run pass settings without a [name] of their own,
    so the name a registration validates is its first argument. *)
Definition plain_registrations (ops : list op) : Prop :=
  forall name settings, Register name settings ∈ ops -> settings !! "name" = None.

(** Every installed wrapper is under a name that matches the name pattern and
    is registered, and no two wrappers are under the same name. *)
Definition wrapper_names_ok (w : world (gmap string obj)) : Prop :=
  (forall flt, flt ∈ filters w ->
     exists n, namespace flt = VStr n /\ Regex.lang name_pattern n
               /\ is_Some (registry w !! n))
  /\ NoDup (namespace <$> filters w).

(** ** Descriptors used as examples *)

(** The world right after the module is loaded, over an empty registry. *)
Definition w0 : world (gmap string obj) := init_world ∅.

(** The example of the specification. *)
Definition highlight : obj :=
  {[ "tagName" := VStr "mark"; "className" := VStr "my-highlight";
     "title" := VStr "Highlight"; "edit" := VFun 0 1 "fn" ]}.

(** Two bare-element formats with an editable-tree hook. *)
Definition bold : obj :=
  {[ "tagName" := VStr "strong"; "className" := VNull; "title" := VStr "Bold";
     "__experimentalCreatePrepareEditableTree" := VFun 1 2 "fn" ]}.

Definition italic : obj :=
  {[ "tagName" := VStr "em"; "className" := VNull; "title" := VStr "Italic";
     "__experimentalCreatePrepareEditableTree" := VFun 2 2 "fn" ]}.

(** A second bare handler for [strong]. *)
Definition strong : obj :=
  {[ "tagName" := VStr "strong"; "className" := VNull;
     "title" := VStr "Strong" ]}.

(** A title that is a number, next to [keywords: null]. *)
Definition numbered : obj :=
  {[ "tagName" := VStr "b"; "className" := VNull; "title" := VNum 5;
     "keywords" := VNull ]}.

(** Descriptors with 4 and with 3 keywords. *)
Definition four_keywords : obj :=
  {[ "tagName" := VStr "b"; "className" := VNull; "title" := VStr "B";
     "keywords" := VArr [VStr "a"; VStr "b"; VStr "c"; VStr "d"] ]}.

Definition three_keywords : obj :=
  {[ "tagName" := VStr "b"; "className" := VNull; "title" := VStr "B";
     "keywords" := VArr [VStr "a"; VStr "b"; VStr "c"] ]}.

(** A class name with a leading digit. *)
Definition digit_class : obj :=
  {[ "tagName" := VStr "span"; "className" := VStr "1abc";
     "title" := VStr "Digit" ]}.

(** Settings that carry a name of their own. *)
Definition self_named : obj :=
  {[ "name" := VStr "my-plugin/own"; "tagName" := VStr "span";
     "className" := VStr "own"; "title" := VStr "Own" ]}.

(** Valid settings but for the name they carry. *)
Definition badly_named : obj :=
  {[ "name" := VStr "My Plugin"; "tagName" := VStr "span";
     "className" := VStr "own"; "title" := VStr "Own" ]}.

(** Props of a wrapped component: two injected under the prefixes of
    [core/bold], one of its own. *)
Definition bold_props : obj :=
  {[ "format_value_(core/bold)_color" := VStr "red";
     "format_on_change_(core/bold)_color" := VStr "blue";
     "identifier" := VStr "content" ]}.

(** The wrapper the registration of [bold] as [core/bold] installs first. *)
Definition bold_wrapper : filter :=
  Filter "experimentalRichText" (VStr "core/bold")
    (<["name" := VStr "core/bold"]> bold) 0.

(** The wrapper the registration of [italic] as [core/italic] installs
    after it. *)
Definition italic_wrapper : filter :=
  Filter "experimentalRichText" (VStr "core/italic")
    (<["name" := VStr "core/italic"]> italic) 1.

(** The registrations of [bold] and of [italic]. *)
Definition bold_then_italic : list op :=
  [Register (VStr "core/bold") bold; Register (VStr "core/italic") italic].

(** * Properties *)

(** ** The matcher decides the language of a pattern *)

Section RegexFacts.
Import Regex.

Lemma append_empty_inv (s1 s2 : string) :
  s1 +:+ s2 = EmptyString -> s1 = EmptyString /\ s2 = EmptyString.
Proof. destruct s1; simpl; [auto | discriminate]. Qed.

Lemma append_cons (a : ascii) (s1 s2 : string) :
  String a s1 +:+ s2 = String a (s1 +:+ s2).
Proof. reflexivity. Qed.

Lemma append_assoc (s1 s2 s3 : string) :
  (s1 +:+ s2) +:+ s3 = s1 +:+ (s2 +:+ s3).
Proof.
  induction s1 as [ | a s1 IH].
  - reflexivity.
  - rewrite !append_cons. f_equal. exact IH.
Qed.

Lemma lang_nullable (r : regex) : lang r EmptyString <-> nullable r = true.
Proof.
  split.
  - intros L. remember EmptyString as e eqn:E.
    induction L; simpl; try discriminate; auto.
    + apply append_empty_inv in E as [-> ->].
      rewrite IHL1, IHL2; auto.
    + rewrite IHL; auto.
    + rewrite IHL; auto using orb_true_r.
  - induction r; simpl; intros N; try discriminate.
    + constructor.
    + apply andb_true_iff in N as [N1 N2].
      change EmptyString with (EmptyString +:+ EmptyString).
      constructor; auto.
    + apply orb_true_iff in N as [N | N];
        [apply lang_alt_l | apply lang_alt_r]; auto.
    + constructor.
Qed.

Lemma lang_deriv_1 (r : regex) (s0 : string) :
  lang r s0 -> forall a s, s0 = String a s -> lang (deriv a r) s.
Proof.
  induction 1 as [ | p c Hp | r1 r2 s1 s2 L1 IH1 L2 IH2 | r1 r2 s L IH
                 | r1 r2 s L IH | r | r s1 s2 L1 IH1 L2 IH2 ];
    intros a t E; simpl.
  - discriminate.
  - injection E as -> <-. rewrite Hp. constructor.
  - destruct s1 as [ | c s1']; simpl in E.
    + apply lang_nullable in L1. rewrite L1.
      apply lang_alt_r. eauto.
    + injection E as -> <-.
      specialize (IH1 _ _ eq_refl).
      destruct (nullable r1); [apply lang_alt_l | ]; constructor; auto.
  - apply lang_alt_l; eauto.
  - apply lang_alt_r; eauto.
  - discriminate.
  - destruct s1 as [ | c s1']; simpl in E.
    + apply (IH2 _ _ E).
    + injection E as -> <-. constructor; eauto.
Qed.

Lemma lang_deriv_2 (r : regex) :
  forall a s, lang (deriv a r) s -> lang r (String a s).
Proof.
  induction r as [ | | p | r1 IH1 r2 IH2 | r1 IH1 r2 IH2 | r IH ];
    intros a s L; simpl in L.
  - inversion L.
  - inversion L.
  - destruct (p a) eqn:Hp; inversion L; subst. constructor; auto.
  - destruct (nullable r1) eqn:N.
    + inversion L as [ | | | ? ? ? L' | ? ? ? L' | | ]; subst.
      * inversion L' as [ | | ? ? s1 s2 La Lb | | | | ]; subst.
        change (String a (s1 +:+ s2)) with (String a s1 +:+ s2).
        constructor; auto.
      * change (String a s) with (EmptyString +:+ String a s).
        constructor; [apply lang_nullable | ]; auto.
    + inversion L as [ | | ? ? s1 s2 La Lb | | | | ]; subst.
      change (String a (s1 +:+ s2)) with (String a s1 +:+ s2).
      constructor; auto.
  - inversion L; subst; [apply lang_alt_l | apply lang_alt_r]; auto.
  - inversion L as [ | | ? ? s1 s2 La Lb | | | | ]; subst.
    change (String a (s1 +:+ s2)) with (String a s1 +:+ s2).
    constructor; auto.
Qed.

(** The derivative matcher accepts exactly the language of the pattern. *)
Lemma test_lang (s : string) : forall r, test r s = true <-> lang r s.
Proof.
  induction s as [ | a s IH]; intros r; simpl.
  - symmetry. apply lang_nullable.
  - rewrite IH. split.
    + apply lang_deriv_2.
    + intros L. apply (lang_deriv_1 _ _ L _ _ eq_refl).
Qed.

Lemma test_not_lang (r : regex) (s : string) :
  test r s = false <-> ~ lang r s.
Proof.
  rewrite <- test_lang. destruct (test r s); split; congruence.
Qed.

Lemma lang_star_cls (p : ascii -> bool) (s : string) :
  lang (Star (Cls p)) s <-> all_chars p s = true.
Proof.
  rewrite <- test_lang. induction s as [ | a s IH]; simpl; [tauto | ].
  destruct (p a); simpl.
  - rewrite <- IH. rewrite !test_lang. split; intros L.
    + inversion L as [ | | ? ? s1 s2 La Lb | | | | ]; subst.
      inversion La; subst. exact Lb.
    + change s with (EmptyString +:+ s). constructor; [constructor | auto].
  - rewrite test_lang. split; [ | discriminate].
    intros L. inversion L as [ | | ? ? s1 s2 La Lb | | | | ]; subst.
    inversion La.
Qed.

(** A string matches [/^[_a-zA-Z]+[a-zA-Z0-9-]*$/] exactly when it is a
    non-empty run of underscores and letters followed by letters, digits
    and hyphens. *)
Lemma class_pattern_spec (s : string) :
  lang class_pattern s <->
  exists s1 s2, s = s1 +:+ s2 /\ s1 <> EmptyString
    /\ all_chars underscore_alpha s1 = true
    /\ all_chars alnum_dash s2 = true.
Proof.
  unfold class_pattern, Plus. split.
  - intros L. inversion L as [ | | ? ? s1 s2 La Lb | | | | ]; subst.
    exists s1, s2. apply lang_star_cls in Lb.
    inversion La as [ | | ? ? t1 t2 Lc Ld | | | | ]; subst.
    inversion Lc; subst. apply lang_star_cls in Ld. simpl.
    split; [reflexivity | ]. split; [discriminate | ].
    split; [apply andb_true_iff | ]; auto.
  - intros (s1 & s2 & -> & Hne & H1 & H2).
    constructor; [ | apply lang_star_cls; auto].
    destruct s1 as [ | a s1]; [congruence | ].
    simpl in H1. apply andb_true_iff in H1 as [Ha H1].
    change (String a s1) with (String a EmptyString +:+ s1).
    constructor; [constructor; auto | apply lang_star_cls; auto].
Qed.

Lemma lang_slug (s : string) :
  lang (Seq (Cls lower) (Star (Cls lower_digit_dash))) s <-> slug s.
Proof.
  split.
  - intros L. inversion L as [ | | ? ? s1 s2 La Lb | | | | ]; subst.
    inversion La; subst. apply lang_star_cls in Lb.
    eexists _, _. simpl. eauto.
  - intros (c & rest & -> & Hc & Hr).
    change (String c rest) with (String c EmptyString +:+ rest).
    constructor; [constructor | apply lang_star_cls]; auto.
Qed.

(** A string matches [/^[a-z][a-z0-9-]*\/[a-z][a-z0-9-]*$/] exactly when it
    is a namespace, a slash and a slug. *)
Lemma name_pattern_spec (s : string) :
  lang name_pattern s <->
  exists ns sl, s = ns +:+ "/" +:+ sl /\ slug ns /\ slug sl.
Proof.
  unfold name_pattern. split.
  - intros L. inversion L as [ | | ? ? s1 s2 La Lb | | | | ]; subst.
    inversion Lb as [ | | ? ? s3 s4 Lc Ld | | | | ]; subst.
    inversion Ld as [ | | ? ? s5 s6 Le Lf | | | | ]; subst.
    exists (s1 +:+ s3), s6. split; [ | split].
    + inversion La; subst. inversion Le as [ | ? ? Hc | | | | | ]; subst.
      unfold is_char in Hc. apply bool_decide_eq_true in Hc as ->.
      reflexivity.
    + apply lang_slug. constructor; auto.
    + apply lang_slug. exact Lf.
  - intros (ns & sl & -> & Hns & Hsl).
    apply lang_slug in Hns. apply lang_slug in Hsl.
    inversion Hns as [ | | ? ? s1 s2 La Lb | | | | ]; subst.
    rewrite append_assoc.
    constructor; [exact La | ].
    constructor; [exact Lb | ].
    change ("/" +:+ sl) with (String "/"%char EmptyString +:+ sl).
    constructor; [ | exact Hsl].
    constructor. reflexivity.
Qed.

End RegexFacts.

(** ** The validation sequence *)

Section Validation.
Context {S : Type} `{RichTextStore S}.

Lemma reject_run (msg : string) (w : world S) :
  reject msg w = (Returned None, logged msg w).
Proof. reflexivity. Qed.

Lemma getp_lookup (d : obj) (k : string) (v : value) :
  d !! k = Some v -> getp d k = v.
Proof. unfold getp. intros ->. reflexivity. Qed.

Ltac run_M :=
  cbv [mbind M_bind mret M_ret throw reject console_error select dispatch
       memize addFilter logged committed].

(** What the function does from line 125 on, in terms of rules 9 to 11. *)
Lemma register_checked_run (name : value) (d : obj) (w : world S) :
  register_checked name d w =
  if negb (rule9 d) then
    (Returned None, logged (msg_title (getp d "name")) w)
  else if negb (keywords_readable d) then (Threw no_length, w)
  else if negb (rule10 d) then
    (Returned None, logged (msg_keywords (getp d "name")) w)
  else if negb (rule11 d) then (Returned None, logged msg_title_type w)
  else (Returned (Some d), committed name d w).
Proof.
  unfold rule9, rule10, rule11, keywords_readable, register_checked, has,
    keywords_too_long, typeof_is_not.
  destruct (d !! "title") as [t | ] eqn:Et; [ | reflexivity].
  rewrite !(getp_lookup _ _ _ Et).
  assert (Hgt : forall n, gt3 (Some n) = negb (n <=? 3))
    by (intros n; apply Nat.ltb_antisym).
  destruct (d !! "keywords") as [k | ] eqn:Ek;
    [rewrite !(getp_lookup _ _ _ Ek) | ];
    destruct t as [ | | b | n | [ | c s] | l | i ar src]; simpl;
    try reflexivity;
    try (destruct k as [ | | b' | n' | s' | l' | i' ar' src']; simpl;
         try reflexivity; run_M; rewrite ?Hgt, ?Nat.ltb_antisym;
         try match goal with
             | |- context [?n <=? 3] => destruct (n <=? 3)
             end; simpl);
    run_M;
    destruct (truthy (getp d "__experimentalCreatePrepareEditableTree"));
    reflexivity.
Qed.

(** What the function does up to line 123, in terms of rules 1 to 8. *)
Lemma registerFormatType_run (name : value) (settings : obj) (w : world S) :
  let d := spread_name name settings in
  let st := registry w in
  registerFormatType name settings w =
  if negb (rule1 d) then (Returned None, logged msg_name_type w)
  else if negb (rule2 d) then (Returned None, logged msg_name_pattern w)
  else if negb (rule3 st d) then
    (Returned None, logged (msg_registered (getp d "name")) w)
  else if negb (rule4 d) then (Returned None, logged msg_tag_name w)
  else if negb (rule5 d) then (Returned None, logged msg_class_type w)
  else if negb (rule6 d) then (Returned None, logged msg_class_pattern w)
  else if negb (rule7 st d) then (Returned None, logged (diagnostic st d 7) w)
  else if negb (rule8 st d) then (Returned None, logged (diagnostic st d 8) w)
  else register_checked name d w.
Proof.
  intros d st. unfold registerFormatType. fold d.
  unfold rule1, rule2, rule3, rule4, rule5, rule6, rule7, rule8, diagnostic,
    typeof_is_not.
  destruct (getp d "name") as [ | | b | n | nm | l | i ar src]; try reflexivity.
  simpl. destruct (Regex.test name_pattern nm); [ | reflexivity]. simpl.
  unfold mbind at 1, M_bind at 1, select at 1. fold st.
  destruct (getFormatType st nm) as [old | ]; [reflexivity | ]. simpl.
  destruct (getp d "tagName") as [ | | b | n | tg | l | i ar src];
    try reflexivity.
  simpl. destruct (bool_decide (tg = EmptyString)); [reflexivity | ]. simpl.
  destruct (getp d "className") as [ | | b | n | cn | l | i ar src];
    try reflexivity; simpl.
  - unfold mbind, M_bind, select. fold st.
    destruct (getFormatTypeForBareElement st tg); reflexivity.
  - destruct (bool_decide (cn = EmptyString)); [reflexivity | ]. simpl.
    destruct (Regex.test class_pattern cn); [ | reflexivity].
    simpl. unfold mbind, M_bind, select. fold st.
    destruct (getFormatTypeForClassName st cn); reflexivity.
Qed.

(** The function carries out the verdict of the rules. *)
Lemma registerFormatType_verdict (name : value) (settings : obj)
    (w : world S) :
  registerFormatType name settings w =
  match verdict_of (registry w) (spread_name name settings) with
  | Rejected k =>
      (Returned None,
       logged (diagnostic (registry w) (spread_name name settings) k) w)
  | Raised => (Threw no_length, w)
  | Accepted =>
      (Returned (Some (spread_name name settings)),
       committed name (spread_name name settings) w)
  end.
Proof.
  rewrite registerFormatType_run. cbv zeta.
  set (d := spread_name name settings). set (st := registry w).
  unfold verdict_of, rules. simpl.
  destruct (rule1 d); [ | reflexivity].
  destruct (rule2 d); [ | reflexivity].
  destruct (rule3 st d); [ | reflexivity].
  destruct (rule4 d); [ | reflexivity].
  destruct (rule5 d); [ | reflexivity].
  destruct (rule6 d); [ | reflexivity].
  destruct (rule7 st d); [ | reflexivity].
  destruct (rule8 st d); [ | reflexivity].
  simpl. rewrite register_checked_run.
  destruct (rule9 d); [ | reflexivity].
  simpl. destruct (keywords_readable d); [ | reflexivity].
  destruct (rule10 d); [ | reflexivity].
  destruct (rule11 d); reflexivity.
Qed.

Lemma verdict_accepted (st : S) (d : obj) :
  verdict_of st d = Accepted ->
  first_failing st d = None /\ keywords_readable d = true.
Proof.
  unfold verdict_of, first_failing, rules. simpl.
  destruct (rule1 d); [ | discriminate].
  destruct (rule2 d); [ | discriminate].
  destruct (rule3 st d); [ | discriminate].
  destruct (rule4 d); [ | discriminate].
  destruct (rule5 d); [ | discriminate].
  destruct (rule6 d); [ | discriminate].
  destruct (rule7 st d); [ | discriminate].
  destruct (rule8 st d); [ | discriminate].
  destruct (rule9 d); [ | discriminate].
  destruct (keywords_readable d); [ | discriminate].
  destruct (rule10 d); [ | discriminate].
  destruct (rule11 d); [ | discriminate].
  split; reflexivity.
Qed.

Lemma first_failing_None (st : S) (d : obj) :
  first_failing st d = None ->
  rule1 d = true /\ rule2 d = true /\ rule3 st d = true /\ rule4 d = true
  /\ rule5 d = true /\ rule6 d = true /\ rule7 st d = true
  /\ rule8 st d = true /\ rule9 d = true /\ rule10 d = true
  /\ rule11 d = true.
Proof.
  unfold first_failing, rules. simpl.
  destruct (rule1 d); [ | discriminate].
  destruct (rule2 d); [ | discriminate].
  destruct (rule3 st d); [ | discriminate].
  destruct (rule4 d); [ | discriminate].
  destruct (rule5 d); [ | discriminate].
  destruct (rule6 d); [ | discriminate].
  destruct (rule7 st d); [ | discriminate].
  destruct (rule8 st d); [ | discriminate].
  destruct (rule9 d); [ | discriminate].
  destruct (rule10 d); [ | discriminate].
  destruct (rule11 d); [ | discriminate].
  intros _. repeat split.
Qed.

Lemma spread_name_fresh (name : value) (settings : obj) :
  settings !! "name" = None ->
  spread_name name settings = <["name" := name]> settings.
Proof.
  intros Hn. unfold spread_name. symmetry.
  apply insert_union_singleton_r. exact Hn.
Qed.

Lemma spread_name_own (name v : value) (settings : obj) :
  settings !! "name" = Some v -> spread_name name settings = settings.
Proof.
  intros Hn. unfold spread_name. apply map_eq. intros k.
  rewrite lookup_union. destruct (decide (k = "name")) as [-> | Hk].
  - rewrite Hn. reflexivity.
  - rewrite lookup_singleton_ne by congruence.
    destruct (settings !! k); reflexivity.
Qed.

End Validation.

(** ** The claims about registration, for any store *)

Section Claims.
Context {S : Type} `{RichTextStore S}.

(** C1: a call whose name matches the namespace/slug pattern and is not yet
    registered, with a non-empty string [tagName], a [className] that is a
    valid class name or [null] without a uniqueness conflict, a non-empty
    string [title] and at most 3 keywords, returns the settings merged with
    [name], and that descriptor is what the store is asked to add. *)
Theorem C1_valid_registration (name tag title : string) (settings : obj)
    (w : world S) :
  settings !! "name" = None ->
  Regex.lang name_pattern name ->
  getFormatType (registry w) name = None ->
  settings !! "tagName" = Some (VStr tag) -> tag <> EmptyString ->
  ((exists cn, settings !! "className" = Some (VStr cn)
      /\ Regex.lang class_pattern cn
      /\ getFormatTypeForClassName (registry w) cn = None)
   \/ (settings !! "className" = Some VNull
       /\ getFormatTypeForBareElement (registry w) tag = None)) ->
  settings !! "title" = Some (VStr title) -> title <> EmptyString ->
  (settings !! "keywords" = None
   \/ exists kw, settings !! "keywords" = Some (VArr kw) /\ length kw <= 3) ->
  exists w',
    registerFormatType (VStr name) settings w
    = (Returned (Some (<["name" := VStr name]> settings)), w')
    /\ registry w' = addFormatTypes (<["name" := VStr name]> settings) (registry w)
    /\ console w' = console w.
Proof.
  intros Hfresh Hname Hnew Htag Htag_ne Hclass Htitle Htitle_ne Hkw.
  set (d := <["name" := VStr name]> settings).
  exists (committed (VStr name) d w). split; [ | split; reflexivity].
  rewrite registerFormatType_run. cbv zeta.
  rewrite (spread_name_fresh _ _ Hfresh). fold d.
  assert (Dname : d !! "name" = Some (VStr name)) by apply lookup_insert_eq.
  assert (Dother : forall k, k <> "name" -> d !! k = settings !! k)
    by (intros k Hk; apply lookup_insert_ne; congruence).
  assert (Dtag : getp d "tagName" = VStr tag)
    by (apply getp_lookup; rewrite Dother by discriminate; exact Htag).
  assert (R1 : rule1 d = true)
    by (unfold rule1; rewrite (getp_lookup _ _ _ Dname); reflexivity).
  assert (R2 : rule2 d = true)
    by (unfold rule2; rewrite (getp_lookup _ _ _ Dname);
        apply test_lang; exact Hname).
  assert (R3 : rule3 (registry w) d = true)
    by (unfold rule3; rewrite (getp_lookup _ _ _ Dname); simpl;
        rewrite Hnew; reflexivity).
  assert (R4 : rule4 d = true)
    by (unfold rule4; rewrite Dtag; rewrite bool_decide_eq_false_2 by exact Htag_ne;
        reflexivity).
  assert (R5678 : rule5 d = true /\ rule6 d = true
                  /\ rule7 (registry w) d = true /\ rule8 (registry w) d = true).
  { unfold rule5, rule6, rule7, rule8. rewrite Dtag.
    destruct Hclass as [(cn & Hcn & Hpat & Hfree) | [Hnull Hfree]].
    - rewrite (getp_lookup d "className" (VStr cn))
        by (rewrite Dother by discriminate; exact Hcn).
      apply test_lang in Hpat. rewrite Hpat, Hfree.
      destruct cn; [discriminate Hpat | ]. repeat split; reflexivity.
    - rewrite (getp_lookup d "className" VNull)
        by (rewrite Dother by discriminate; exact Hnull).
      simpl. rewrite Hfree. repeat split; reflexivity. }
  destruct R5678 as (R5 & R6 & R7 & R8).
  rewrite R1, R2, R3, R4, R5, R6, R7, R8. simpl.
  rewrite register_checked_run.
  assert (R9 : rule9 d = true)
    by (unfold rule9; rewrite Dother by discriminate; rewrite Htitle;
        rewrite bool_decide_eq_false_2 by exact Htitle_ne; reflexivity).
  assert (R11 : rule11 d = true)
    by (unfold rule11; rewrite (getp_lookup d "title" (VStr title))
          by (rewrite Dother by discriminate; exact Htitle);
        reflexivity).
  assert (R10 : keywords_readable d = true /\ rule10 d = true).
  { unfold keywords_readable, rule10. rewrite Dother by discriminate.
    destruct Hkw as [-> | (kw & -> & Hlen)]; [split; reflexivity | ].
    simpl. split; [reflexivity | ]. apply Nat.leb_le. exact Hlen. }
  destruct R10 as [KR R10].
  rewrite R9, KR, R10, R11. reflexivity.
Qed.

Lemma logged_inj (m1 m2 : string) (w : world S) :
  logged m1 w = logged m2 w -> m1 = m2.
Proof.
  intros E. apply (f_equal console) in E. simpl in E.
  apply app_inv_head in E. congruence.
Qed.

Lemma outcome_logged_inj {A} (o1 o2 : outcome A) (m1 m2 : string)
    (w : world S) :
  (o1, logged m1 w) = (o2, logged m2 w) -> m1 = m2.
Proof.
  intros E. apply (f_equal snd) in E. simpl in E.
  apply logged_inj in E. exact E.
Qed.

(** The validation sequence: when a rule fails, the function logs the
    diagnostic of the first failing rule in the stated order, returns
    [undefined], raises no exception and leaves the rest of the world as it
    was -- provided that, when the first failing rule is rule 11, [keywords]
    is absent or has a length that can be read. *)
Lemma first_failing_rule_aborts (name : value) (settings : obj)
    (w : world S) (k : nat) :
  first_failing (registry w) (spread_name name settings) = Some k ->
  (k = 11 -> keywords_readable (spread_name name settings) = true) ->
  registerFormatType name settings w
  = (Returned None,
     logged (diagnostic (registry w) (spread_name name settings) k) w).
Proof.
  rewrite registerFormatType_run. cbv zeta.
  set (d := spread_name name settings). set (st := registry w).
  unfold first_failing, rules. simpl.
  destruct (rule1 d); [ | intros [= <-] _; reflexivity].
  destruct (rule2 d); [ | intros [= <-] _; reflexivity].
  destruct (rule3 st d); [ | intros [= <-] _; reflexivity].
  destruct (rule4 d); [ | intros [= <-] _; reflexivity].
  destruct (rule5 d); [ | intros [= <-] _; reflexivity].
  destruct (rule6 d); [ | intros [= <-] _; reflexivity].
  destruct (rule7 st d); [ | intros [= <-] _; reflexivity].
  destruct (rule8 st d); [ | intros [= <-] _; reflexivity].
  simpl. rewrite register_checked_run.
  destruct (rule9 d); [ | intros [= <-] _; reflexivity].
  destruct (rule10 d) eqn:R10.
  - destruct (rule11 d); [discriminate | ].
    intros [= <-] KR. rewrite KR by reflexivity. reflexivity.
  - intros [= <-] _.
    assert (KR : keywords_readable d = true).
    { unfold rule10 in R10. unfold keywords_readable.
      destruct (d !! "keywords") as [v | ]; [ | reflexivity].
      destruct (length_of v) as [[n | ] | ]; try discriminate. reflexivity. }
    rewrite KR. reflexivity.
Qed.

(** C3: when the name of the descriptor is a string outside the language of
    the namespace/slug pattern, the function returns [undefined] and the
    registry is what it was. *)
Theorem C3_bad_name_rejected (name : value) (settings : obj) (w : world S)
    (s : string) :
  getp (spread_name name settings) "name" = VStr s ->
  ~ Regex.lang name_pattern s ->
  exists w',
    registerFormatType name settings w = (Returned None, w')
    /\ registry w' = registry w
    /\ console w' = console w ++ [msg_name_pattern].
Proof.
  intros Hname Hpat. exists (logged msg_name_pattern w).
  split; [ | split; reflexivity].
  rewrite registerFormatType_run. cbv zeta.
  unfold rule1, rule2. rewrite Hname. simpl.
  apply test_not_lang in Hpat. rewrite Hpat. reflexivity.
Qed.

Ltac split_rules E :=
  repeat match type of E with
         | (_ && _ = true) =>
             let R := fresh "R" in apply andb_true_iff in E as [R E]
         end.

Lemma passes_first_5 (st : S) (d : obj) :
  passes_first 5 st d = true ->
  rule1 d = true /\ rule2 d = true /\ rule3 st d = true
  /\ rule4 d = true /\ rule5 d = true.
Proof.
  unfold passes_first, rules. simpl. intros E. split_rules E. auto.
Qed.

(** C6: once rules 1 to 5 have passed, the function rejects the descriptor
    with the class-name diagnostic exactly when [className] is a string
    outside the language of [^[_a-zA-Z]+[a-zA-Z0-9-]*$]; a [null]
    [className] is never rejected by it, ["1abc"] is, ["a-1"] is not. *)
Theorem C6_class_name_pattern (name : value) (settings : obj) (w : world S) :
  passes_first 5 (registry w) (spread_name name settings) = true ->
  (registerFormatType name settings w
     = (Returned None, logged msg_class_pattern w)
   <-> exists s, getp (spread_name name settings) "className" = VStr s
                 /\ ~ Regex.lang class_pattern s)
  /\ (getp (spread_name name settings) "className" = VNull ->
      registerFormatType name settings w
        <> (Returned None, logged msg_class_pattern w))
  /\ (getp (spread_name name settings) "className" = VStr "1abc" ->
      registerFormatType name settings w
        = (Returned None, logged msg_class_pattern w))
  /\ (getp (spread_name name settings) "className" = VStr "a-1" ->
      registerFormatType name settings w
        <> (Returned None, logged msg_class_pattern w)).
Proof.
  intros P5. apply passes_first_5 in P5 as (R1 & R2 & R3 & R4 & R5).
  set (d := spread_name name settings) in *.
  assert (Main : registerFormatType name settings w
                   = (Returned None, logged msg_class_pattern w)
                 <-> exists s, getp d "className" = VStr s
                               /\ ~ Regex.lang class_pattern s).
  { rewrite registerFormatType_run. cbv zeta. fold d.
    rewrite R1, R2, R3, R4, R5. simpl. split.
    - destruct (rule6 d) eqn:R6; simpl.
      + intros E. exfalso. revert E.
        unfold rule7, rule8, diagnostic. unfold rule5 in R5.
        destruct (getp d "className") as [ | | b | n | cn | l | i ar src];
          try discriminate R5; simpl.
        * destruct (getFormatTypeForBareElement (registry w)
                      (ToString (getp d "tagName"))); simpl.
          -- intros E. apply outcome_logged_inj in E. discriminate E.
          -- rewrite register_checked_run.
             destruct (rule9 d), (keywords_readable d), (rule10 d), (rule11 d);
               simpl; intros E; try discriminate E;
               apply outcome_logged_inj in E; discriminate E.
        * destruct (getFormatTypeForClassName (registry w) cn); simpl.
          -- intros E. apply outcome_logged_inj in E. discriminate E.
          -- rewrite register_checked_run.
             destruct (rule9 d), (keywords_readable d), (rule10 d), (rule11 d);
               simpl; intros E; try discriminate E;
               apply outcome_logged_inj in E; discriminate E.
      + intros _. unfold rule6 in R6.
        destruct (getp d "className") as [ | | b | n | cn | l | i ar src];
          try discriminate R6.
        exists cn. split; [reflexivity | ]. apply test_not_lang. exact R6.
    - intros (s & Hs & Hpat). unfold rule6. rewrite Hs.
      apply test_not_lang in Hpat. rewrite Hpat. reflexivity. }
  split; [exact Main | ]. split; [ | split].
  - intros Hnull E. apply Main in E as (s & Hs & _). congruence.
  - intros Hs. apply Main. exists "1abc". split; [exact Hs | ].
    apply test_not_lang. reflexivity.
  - intros Hs E. apply Main in E as (s & Hs' & Hpat).
    rewrite Hs in Hs'. injection Hs' as <-.
    apply Hpat. apply test_lang. reflexivity.
Qed.

Lemma passes_all_but_10 (st : S) (d : obj) :
  passes_all_but 10 st d = true ->
  passes_first 5 st d = true /\ rule6 d = true /\ rule7 st d = true
  /\ rule8 st d = true /\ rule9 d = true /\ rule11 d = true.
Proof.
  unfold passes_all_but, passes_first, rules. simpl. intros E.
  split_rules E. repeat split; try assumption.
  repeat (apply andb_true_iff; split; [assumption | ]). reflexivity.
Qed.

Lemma passes_all_but_7 (st : S) (d : obj) :
  passes_all_but 7 st d = true ->
  passes_first 5 st d = true /\ rule6 d = true /\ rule8 st d = true
  /\ rule9 d = true /\ rule10 d = true /\ rule11 d = true.
Proof.
  unfold passes_all_but, passes_first, rules. simpl. intros E.
  split_rules E. repeat split; try assumption.
  repeat (apply andb_true_iff; split; [assumption | ]). reflexivity.
Qed.

(** C7: for a descriptor that passes every other rule, a [keywords] array
    of 4 entries makes the function return [undefined], and one of exactly
    3 entries is accepted: the descriptor is registered and returned. *)
Theorem C7_keywords_limit (name : value) (settings : obj) (w : world S)
    (kw : list value) :
  passes_all_but 10 (registry w) (spread_name name settings) = true ->
  spread_name name settings !! "keywords" = Some (VArr kw) ->
  (length kw = 4 ->
   registerFormatType name settings w
   = (Returned None,
      logged (msg_keywords (getp (spread_name name settings) "name")) w))
  /\ (length kw = 3 ->
      registerFormatType name settings w
      = (Returned (Some (spread_name name settings)),
         committed name (spread_name name settings) w)).
Proof.
  intros Hothers Hkw. set (d := spread_name name settings) in *.
  apply passes_all_but_10 in Hothers as (P5 & R6 & R7 & R8 & R9 & R11).
  apply passes_first_5 in P5 as (R1 & R2 & R3 & R4 & R5).
  rewrite registerFormatType_run. cbv zeta. fold d.
  rewrite R1, R2, R3, R4, R5, R6, R7, R8. simpl.
  rewrite register_checked_run, R9, R11.
  unfold keywords_readable, rule10. rewrite Hkw. simpl.
  split; intros ->; reflexivity.
Qed.

(** C10: when the settings carry a [name] of their own, that name is the
    one the function works with, whatever the first argument is: a
    [settings.name] that is no string, that does not match the pattern or
    that is already registered is rejected with the diagnostic of that rule;
    more generally the first rule that fails for the settings as they are
    decides the diagnostic; and when the settings pass every rule the
    function returns the settings themselves, under [settings.name], and
    asks the store to add them. *)
Theorem C10_settings_name_overrides (name v : value) (settings : obj)
    (w : world S) :
  settings !! "name" = Some v ->
  (typeof v <> TString ->
   registerFormatType name settings w = (Returned None, logged msg_name_type w))
  /\ (forall s, v = VStr s -> ~ Regex.lang name_pattern s ->
        registerFormatType name settings w
        = (Returned None, logged msg_name_pattern w))
  /\ (forall s, v = VStr s -> Regex.lang name_pattern s ->
        is_Some (getFormatType (registry w) s) ->
        registerFormatType name settings w
        = (Returned None, logged (msg_registered (VStr s)) w))
  /\ (forall k, first_failing (registry w) settings = Some k ->
        (k = 11 -> keywords_readable settings = true) ->
        registerFormatType name settings w
        = (Returned None, logged (diagnostic (registry w) settings k) w))
  /\ (first_failing (registry w) settings = None ->
      keywords_readable settings = true ->
      fst (registerFormatType name settings w) = Returned (Some settings)
      /\ getp settings "name" = v
      /\ registry (snd (registerFormatType name settings w))
         = addFormatTypes settings (registry w)).
Proof.
  intros Hown.
  pose proof (spread_name_own name v settings Hown) as Hsp.
  pose proof (getp_lookup _ _ _ Hown) as Hname.
  assert (Hfail : forall k, first_failing (registry w) settings = Some k ->
            (k = 11 -> keywords_readable settings = true) ->
            registerFormatType name settings w
            = (Returned None, logged (diagnostic (registry w) settings k) w)).
  { intros k Hk Hkw.
    pose proof (first_failing_rule_aborts name settings w k) as Habort.
    rewrite Hsp in Habort. apply Habort; assumption. }
  split; [ | split; [ | split; [ | split; [exact Hfail | ]]]].
  - intros Htype.
    apply (Hfail 1); [ | discriminate].
    unfold first_failing, rules, rule1. simpl. rewrite Hname.
    rewrite bool_decide_eq_false_2 by exact Htype. reflexivity.
  - intros s -> Hpat.
    apply (Hfail 2); [ | discriminate].
    unfold first_failing, rules, rule1, rule2. simpl. rewrite Hname. simpl.
    apply test_not_lang in Hpat. rewrite Hpat. reflexivity.
  - intros s -> Hpat Hreg.
    pose proof (Hfail 3) as H3. unfold diagnostic in H3. rewrite Hname in H3.
    apply H3; [ | discriminate].
    unfold first_failing, rules, rule1, rule2, rule3. simpl. rewrite Hname.
    simpl. apply test_lang in Hpat. rewrite Hpat.
    rewrite bool_decide_eq_true_2 by exact Hreg. reflexivity.
  - intros Hrules KR.
    rewrite registerFormatType_verdict, Hsp.
    apply first_failing_None in Hrules
      as (R1 & R2 & R3 & R4 & R5 & R6 & R7 & R8 & R9 & R10 & R11).
    unfold verdict_of, rules. simpl.
    rewrite R1, R2, R3, R4, R5, R6, R7, R8, R9, KR, R10, R11. simpl.
    split; [reflexivity | split; [exact Hname | reflexivity]].
Qed.

(** A call that returns a descriptor passed every rule and committed. *)
Lemma register_success_inv (name : value) (settings d : obj)
    (w w' : world S) :
  registerFormatType name settings w = (Returned (Some d), w') ->
  d = spread_name name settings /\ w' = committed name d w
  /\ first_failing (registry w) (spread_name name settings) = None.
Proof.
  rewrite registerFormatType_verdict.
  destruct (verdict_of _ _) eqn:V; intros E; try discriminate E.
  injection E as <- <-. apply verdict_accepted in V as [V _].
  repeat split. exact V.
Qed.

End Claims.

(** ** The claims that rest on what the store keeps *)

Section SpecStore.

Lemma claims_bare_element_true (tag : string) (d : obj) :
  claims_bare_element tag d = true
  <-> getp d "className" = VNull /\ getp d "tagName" = VStr tag.
Proof.
  unfold claims_bare_element, is_null, strict_eq_str.
  destruct (getp d "className"), (getp d "tagName");
    simpl; try (split; [discriminate | intros [? ?]; discriminate]).
  rewrite bool_decide_eq_true. split; [intros -> | intros [_ [= ->]]]; auto.
Qed.

Lemma bare_element_found (st : gmap string obj) (tag : string) :
  is_Some (getFormatTypeForBareElement st tag)
  <-> exists n old, st !! n = Some old /\ getp old "className" = VNull
                    /\ getp old "tagName" = VStr tag.
Proof.
  simpl. split.
  - intros [old Hfind]. apply find_some in Hfind as [Hin Hclaims].
    apply list_elem_of_In, list_elem_of_fmap in Hin as ([n old'] & -> & Hin).
    apply elem_of_map_to_list in Hin. apply claims_bare_element_true in Hclaims.
    exists n, old'. simpl in *. tauto.
  - intros (n & old & Hlook & Hcls & Htag).
    destruct (List.find _ _) as [found | ] eqn:Hfind; [eauto | ].
    exfalso.
    assert (Hcl : claims_bare_element tag old = false).
    { apply (find_none _ _ Hfind). apply list_elem_of_In, list_elem_of_fmap.
      exists (n, old). split; [reflexivity | ].
      apply elem_of_map_to_list. exact Hlook. }
    assert (claims_bare_element tag old = true)
      by (apply claims_bare_element_true; auto).
    congruence.
Qed.

(** In the store of the specification, a descriptor that was added is the
    one read back under its name. *)
Lemma spec_store_add_get (d : obj) (st : gmap string obj) :
  getFormatType (addFormatTypes d st) (ToString (getp d "name")) = Some d.
Proof. simpl. apply lookup_insert_eq. Qed.

(** C4: after a registration has succeeded, a second call under the same
    name, whatever its settings, returns [undefined], and the registry still
    holds the first descriptor under that name. *)
Theorem C4_second_registration_rejected (name1 name2 : value)
    (settings1 settings2 d : obj) (n : string)
    (w w1 : world (gmap string obj)) :
  registerFormatType name1 settings1 w = (Returned (Some d), w1) ->
  getp d "name" = VStr n ->
  getp (spread_name name2 settings2) "name" = VStr n ->
  exists w2,
    registerFormatType name2 settings2 w1 = (Returned None, w2)
    /\ registry w2 = registry w1
    /\ registry w2 !! n = Some d
    /\ console w2 = console w1 ++ [msg_registered (VStr n)].
Proof.
  intros Hfirst Hn Hsame.
  apply register_success_inv in Hfirst as (Hd & -> & Hrules).
  rewrite <- Hd in Hrules.
  exists (logged (msg_registered (VStr n)) (committed name1 d w)).
  assert (Hreg : registry (committed name1 d w) !! n = Some d).
  { simpl. rewrite Hn. simpl. apply lookup_insert_eq. }
  split; [ | split; [reflexivity | split; [exact Hreg | reflexivity]]].
  rewrite registerFormatType_run. cbv zeta.
  assert (R2 : rule2 d = true).
  { revert Hrules. unfold first_failing, rules. simpl.
    destruct (rule1 d); [ | discriminate].
    destruct (rule2 d); [reflexivity | discriminate]. }
  unfold rule1, rule2, rule3 at 1. unfold rule2 in R2.
  rewrite Hsame. rewrite Hn in R2. simpl. rewrite R2. simpl.
  simpl in Hreg. rewrite Hreg. reflexivity.
Qed.

(** C5: for a descriptor whose [className] is [null], the function returns
    [undefined] when a registered descriptor already handles the same
    [tagName] as a bare element; when every registered descriptor has
    another [tagName] or a class name that is a string, the bare-element
    check passes, and a descriptor that is valid otherwise is registered. *)
Theorem C5_bare_element_conflict (name : value) (settings : obj)
    (tag : string) (w : world (gmap string obj)) :
  getp (spread_name name settings) "className" = VNull ->
  getp (spread_name name settings) "tagName" = VStr tag ->
  ((exists n old, registry w !! n = Some old
      /\ getp old "className" = VNull /\ getp old "tagName" = VStr tag) ->
   exists w', registerFormatType name settings w = (Returned None, w')
              /\ registry w' = registry w)
  /\ ((forall n old, registry w !! n = Some old ->
         getp old "tagName" <> VStr tag
         \/ typeof (getp old "className") = TString) ->
      rule7 (registry w) (spread_name name settings) = true
      /\ (passes_all_but 7 (registry w) (spread_name name settings) = true ->
          keywords_readable (spread_name name settings) = true ->
          registerFormatType name settings w
          = (Returned (Some (spread_name name settings)),
             committed name (spread_name name settings) w))).
Proof.
  intros Hcls Htag. set (d := spread_name name settings) in *.
  set (st := registry w).
  split.
  - intros Hconflict. apply bare_element_found in Hconflict.
    assert (R7 : rule7 st d = false).
    { unfold rule7. rewrite Hcls, Htag. simpl.
      rewrite bool_decide_eq_true_2 by exact Hconflict. reflexivity. }
    rewrite registerFormatType_run. cbv zeta. fold d st. rewrite R7.
    destruct (rule1 d), (rule2 d), (rule3 st d), (rule4 d), (rule5 d),
      (rule6 d); simpl; eexists; (split; [reflexivity | reflexivity]).
  - intros Hfree.
    assert (R7 : rule7 st d = true).
    { unfold rule7. rewrite Hcls, Htag. simpl.
      rewrite bool_decide_eq_false_2; [reflexivity | ].
      intros Hsome. apply bare_element_found in Hsome
        as (n & old & Hlook & Hc & Ht).
      destruct (Hfree n old Hlook) as [Hne | Hstr]; [congruence | ].
      rewrite Hc in Hstr. discriminate Hstr. }
    split; [exact R7 | ]. intros Hothers KR.
    apply passes_all_but_7 in Hothers as (P5 & R6 & R8 & R9 & R10 & R11).
    apply passes_first_5 in P5 as (R1 & R2 & R3 & R4 & R5).
    rewrite registerFormatType_run. cbv zeta. fold d st.
    rewrite R1, R2, R3, R4, R5, R6, R7, R8. simpl.
    rewrite register_checked_run, R9, KR, R10, R11. reflexivity.
Qed.

End SpecStore.

(** ** The memoized stack builder *)

Section Memo.
Context {S : Type} `{RichTextStore S}.

Lemma memo_lookup_Some (k : memo_key) (c : memo_cache) (v : nat)
    (others : memo_cache) :
  memo_lookup k c = Some (v, others) -> c ≡ₚ (k, v) :: others.
Proof.
  revert v others. induction c as [ | [k' v'] rest IH]; intros v others; simpl.
  - discriminate.
  - destruct (decide (k' = k)) as [-> | Hne].
    + intros [= -> ->]. reflexivity.
    + destruct (memo_lookup k rest) as [[v0 rest'] | ]; [ | discriminate].
      intros [= -> <-]. rewrite (IH _ _ eq_refl). apply Permutation_swap.
Qed.

Lemma memo_lookup_None (k : memo_key) (c : memo_cache) :
  memo_lookup k c = None -> k ∉ c.*1.
Proof.
  induction c as [ | [k' v'] rest IH]; simpl.
  - intros _. apply not_elem_of_nil.
  - destruct (decide (k' = k)) as [-> | Hne]; [discriminate | ].
    destruct (memo_lookup k rest) as [[v0 rest'] | ]; [discriminate | ].
    intros _. rewrite not_elem_of_cons. split; [congruence | auto].
Qed.

Lemma memo_lookup_head (k : memo_key) (v : nat) (c : memo_cache) :
  memo_lookup k ((k, v) :: c) = Some (v, c).
Proof. simpl. rewrite decide_True by reflexivity. reflexivity. Qed.

Lemma stack_contents_app (h h' : list (list nat)) (p : option nat)
    (elems : list nat) :
  stack_contents h p = Some elems -> stack_contents (h ++ h') p = Some elems.
Proof. unfold stack_contents. apply lookup_app_l_Some. Qed.

Lemma cache_ok_app (h h' : list (list nat)) (c : memo_cache) :
  cache_ok h c -> cache_ok (h ++ h') c.
Proof.
  intros (Hk & Hv & Hc). split; [exact Hk | split; [exact Hv | ]].
  intros p f r Hin. destruct (Hc p f r Hin) as (elems & He & Hr).
  exists elems. split; [apply stack_contents_app | apply lookup_app_l_Some]; auto.
Qed.

Lemma cache_ok_perm (h : list (list nat)) (c c' : memo_cache) :
  c ≡ₚ c' -> cache_ok h c -> cache_ok h c'.
Proof.
  intros Hp (Hk & Hv & Hc). split; [ | split].
  - rewrite <- Hp. exact Hk.
  - rewrite <- Hp. exact Hv.
  - intros p f r Hin. apply (Hc p f r). rewrite Hp. exact Hin.
Qed.

Lemma cache_ok_new (h : list (list nat)) (c : memo_cache) (p : option nat)
    (f : nat) (elems : list nat) :
  cache_ok h c -> (p, f) ∉ c.*1 -> stack_contents h p = Some elems ->
  cache_ok (h ++ [elems ++ [f]]) ((p, f, length h) :: c).
Proof.
  intros Hok Hnew He. pose proof (cache_ok_app h [elems ++ [f]] c Hok)
    as (Hk & Hv & Hc).
  split; [ | split].
  - simpl. apply NoDup_cons. split; [exact Hnew | exact Hk].
  - simpl. apply NoDup_cons. split; [ | exact Hv].
    intros Hin. apply list_elem_of_fmap in Hin as ([[p' f'] r'] & Hr & Hin).
    simpl in Hr. subst r'. destruct Hok as (_ & _ & Hold).
    destruct (Hold p' f' _ Hin) as (e' & _ & Hlook).
    apply lookup_lt_Some in Hlook. lia.
  - intros p' f' r' Hin. apply elem_of_cons in Hin as [[= -> -> ->] | Hin].
    + exists elems. split; [apply stack_contents_app; exact He | ].
      apply list_lookup_middle. reflexivity.
    + apply (Hc p' f' r' Hin).
Qed.

(** The four ways a call of the memoized builder can go. *)
Lemma build_cases (m : nat) (p : option nat) (f : nat) (w : world S) :
  (memos w !! m = None
   /\ exists e, getFunctionStackMemoized m p f w = (Threw e, w))
  \/ (exists c v others,
        memos w !! m = Some c /\ memo_lookup (p, f) c = Some (v, others)
        /\ getFunctionStackMemoized m p f w
           = (Returned v,
              World (registry w) (console w) (filters w)
                (<[m := (p, f, v) :: others]> (memos w)) (heap w)))
  \/ (exists c,
        memos w !! m = Some c /\ memo_lookup (p, f) c = None
        /\ stack_contents (heap w) p = None
        /\ exists e, getFunctionStackMemoized m p f w = (Threw e, w))
  \/ (exists c elems,
        memos w !! m = Some c /\ memo_lookup (p, f) c = None
        /\ stack_contents (heap w) p = Some elems
        /\ getFunctionStackMemoized m p f w
           = (Returned (length (heap w)),
              World (registry w) (console w) (filters w)
                (<[m := (p, f, length (heap w)) :: c]> (memos w))
                (heap w ++ [elems ++ [f]]))).
Proof.
  unfold getFunctionStackMemoized.
  destruct (memos w !! m) as [c | ] eqn:Hm; [ | left; eauto].
  right. destruct (memo_lookup (p, f) c) as [[v others] | ] eqn:Hl.
  - left. exists c, v, others. auto.
  - right. unfold mbind, M_bind, function_stack.
    destruct (stack_contents (heap w) p) as [elems | ] eqn:Hs.
    + right. exists c, elems. auto.
    + left. exists c. eauto.
Qed.

Lemma build_preserves_wf (m : nat) (p : option nat) (f : nat) (w : world S) :
  memo_wf w -> memo_wf (snd (getFunctionStackMemoized m p f w)).
Proof.
  intros Hwf.
  destruct (build_cases m p f w)
    as [(_ & e & ->) | [(c & v & o & Hm & Hl & ->)
       | [(c & _ & _ & _ & e & ->) | (c & elems & Hm & Hl & Hs & ->)]]];
    simpl; try exact Hwf.
  - intros m' c' Hm'. simpl in Hm'.
    destruct (decide (m = m')) as [<- | Hne].
    + rewrite list_lookup_insert_eq in Hm' by (eapply lookup_lt_Some; eauto).
      injection Hm' as <-. apply memo_lookup_Some in Hl.
      apply (cache_ok_perm _ c); [exact Hl | apply (Hwf m); exact Hm].
    + rewrite list_lookup_insert_ne in Hm' by exact Hne.
      apply (Hwf m'). exact Hm'.
  - intros m' c' Hm'. simpl in Hm'. simpl.
    destruct (decide (m = m')) as [<- | Hne].
    + rewrite list_lookup_insert_eq in Hm' by (eapply lookup_lt_Some; eauto).
      injection Hm' as <-.
      apply cache_ok_new; [apply (Hwf m); exact Hm | | exact Hs].
      apply memo_lookup_None. exact Hl.
    + rewrite list_lookup_insert_ne in Hm' by exact Hne.
      apply cache_ok_app. apply (Hwf m'). exact Hm'.
Qed.

(** A registration leaves the heap alone and at most adds an empty cache. *)
Lemma register_memos (name : value) (settings : obj) (w : world S) :
  heap (snd (registerFormatType name settings w)) = heap w
  /\ (memos (snd (registerFormatType name settings w)) = memos w
      \/ memos (snd (registerFormatType name settings w)) = memos w ++ [[]]).
Proof.
  rewrite registerFormatType_verdict.
  destruct (verdict_of _ _); simpl; auto.
Qed.

Lemma exec_preserves_wf (o : op) (w : world S) :
  memo_wf w -> memo_wf (exec o w).
Proof.
  intros Hwf. destruct o as [name settings | m p f]; simpl.
  - destruct (register_memos name settings w) as [Hh [Hm | Hm]];
      intros m c Hc; rewrite Hh; rewrite Hm in Hc.
    + apply (Hwf m). exact Hc.
    + apply lookup_app_Some in Hc as [Hc | [_ Hc]]; [apply (Hwf m); exact Hc | ].
      apply list_lookup_singleton_Some in Hc as [_ <-].
      split; [constructor | split; [constructor | ]].
      intros ? ? ? Hin. apply elem_of_nil in Hin. contradiction.
  - apply build_preserves_wf. exact Hwf.
Qed.

(** No operation drops a cache or an entry of a cache. *)
Lemma exec_memo_mono (o : op) (w : world S) (m : nat) (c : memo_cache) :
  memos w !! m = Some c ->
  exists c', memos (exec o w) !! m = Some c' /\ c ⊆ c'.
Proof.
  intros Hc. destruct o as [name settings | m' p f]; simpl.
  - exists c. split; [ | reflexivity].
    destruct (register_memos name settings w) as [_ [-> | ->]];
      [exact Hc | apply lookup_app_l_Some; exact Hc].
  - destruct (build_cases m' p f w)
      as [(_ & e & ->) | [(c0 & v & o & Hm & Hl & ->)
         | [(c0 & _ & _ & _ & e & ->) | (c0 & elems & Hm & Hl & Hs & ->)]]];
      simpl; try (exists c; split; [exact Hc | reflexivity]).
    + destruct (decide (m' = m)) as [-> | Hne].
      * rewrite list_lookup_insert_eq by (eapply lookup_lt_Some; eauto).
        eexists. split; [reflexivity | ].
        rewrite Hc in Hm. injection Hm as <-.
        apply memo_lookup_Some in Hl. rewrite Hl. reflexivity.
      * rewrite list_lookup_insert_ne by exact Hne.
        exists c. split; [exact Hc | reflexivity].
    + destruct (decide (m' = m)) as [-> | Hne].
      * rewrite list_lookup_insert_eq by (eapply lookup_lt_Some; eauto).
        eexists. split; [reflexivity | ].
        rewrite Hc in Hm. injection Hm as <-.
        apply list_subseteq_cons. reflexivity.
      * rewrite list_lookup_insert_ne by exact Hne.
        exists c. split; [exact Hc | reflexivity].
Qed.

Lemma exec_seen (ops : list op) (o : op) (w : world S) :
  memo_seen ops w -> memo_seen (ops ++ [o]) (exec o w).
Proof.
  intros Hseen m c k Hc Hk. apply elem_of_app.
  destruct o as [name settings | m' p f]; simpl in Hc.
  - left. destruct (register_memos name settings w) as [_ [Hm | Hm]];
      rewrite Hm in Hc.
    + apply (Hseen m c k Hc Hk).
    + apply lookup_app_Some in Hc as [Hc | [_ Hc]];
        [apply (Hseen m c k Hc Hk) | ].
      apply list_lookup_singleton_Some in Hc as [_ <-].
      apply elem_of_nil in Hk. contradiction.
  - destruct (build_cases m' p f w)
      as [(_ & e & E) | [(c0 & v & o & Hm & Hl & E)
         | [(c0 & _ & _ & _ & e & E) | (c0 & elems & Hm & Hl & Hs & E)]]];
      rewrite E in Hc; simpl in Hc;
      try (left; apply (Hseen m c k Hc Hk)).
    + destruct (decide (m' = m)) as [-> | Hne].
      * rewrite list_lookup_insert_eq in Hc by (eapply lookup_lt_Some; eauto).
        injection Hc as <-. simpl in Hk.
        apply elem_of_cons in Hk as [-> | Hk];
          [right; apply list_elem_of_singleton; reflexivity | left].
        apply (Hseen m c0 k Hm). apply memo_lookup_Some in Hl.
        rewrite Hl. simpl. apply elem_of_cons. right. exact Hk.
      * rewrite list_lookup_insert_ne in Hc by exact Hne.
        left. apply (Hseen m c k Hc Hk).
    + destruct (decide (m' = m)) as [-> | Hne].
      * rewrite list_lookup_insert_eq in Hc by (eapply lookup_lt_Some; eauto).
        injection Hc as <-. simpl in Hk.
        apply elem_of_cons in Hk as [-> | Hk];
          [right; apply list_elem_of_singleton; reflexivity | left].
        apply (Hseen m c0 k Hm Hk).
      * rewrite list_lookup_insert_ne in Hc by exact Hne.
        left. apply (Hseen m c k Hc Hk).
Qed.

Lemma run_snoc (ops : list op) (o : op) (w : world S) :
  run (ops ++ [o]) w = exec o (run ops w).
Proof. unfold run. rewrite fold_left_app. reflexivity. Qed.

(** Every world the program reaches has well-formed caches. *)
Lemma run_invariant (ops : list op) (st : S) :
  memo_wf (run ops (init_world st)) /\ memo_seen ops (run ops (init_world st)).
Proof.
  induction ops as [ | o ops [IHwf IHseen]] using rev_ind.
  - split.
    + intros m c Hc. simpl in Hc. rewrite lookup_nil in Hc. discriminate.
    + intros m c k Hc. simpl in Hc. rewrite lookup_nil in Hc. discriminate.
  - rewrite run_snoc. split.
    + apply exec_preserves_wf. exact IHwf.
    + apply exec_seen. exact IHseen.
Qed.

(** No operation changes an array that exists. *)
Lemma heap_lookup_preserved (o : op) (w : world S) (i : nat) (x : list nat) :
  heap w !! i = Some x -> heap (exec o w) !! i = Some x.
Proof.
  intros Hi. destruct o as [name settings | m p f]; simpl.
  - destruct (register_memos name settings w) as [-> _]. exact Hi.
  - destruct (build_cases m p f w)
      as [(_ & e & ->) | [(c & v & o & _ & _ & ->)
         | [(c & _ & _ & _ & e & ->) | (c & elems & _ & _ & _ & ->)]]];
      simpl; try exact Hi.
    apply lookup_app_l_Some. exact Hi.
Qed.

Lemma run_heap_mono (ops : list op) (w : world S) (i : nat) (x : list nat) :
  heap w !! i = Some x -> heap (run ops w) !! i = Some x.
Proof.
  induction ops as [ | o ops IH] using rev_ind; [auto | ].
  intros Hi. rewrite run_snoc. apply heap_lookup_preserved. auto.
Qed.

(** A call on a well-formed world, with a previous stack that is an array:
    the array returned, and the cache after the call. *)
Lemma build_returns (m : nat) (p : option nat) (f : nat) (elems : list nat)
    (w : world S) :
  memo_wf w -> m < length (memos w) ->
  stack_contents (heap w) p = Some elems ->
  exists r others h',
    getFunctionStackMemoized m p f w
    = (Returned r,
       World (registry w) (console w) (filters w)
         (<[m := (p, f, r) :: others]> (memos w)) (heap w ++ h'))
    /\ (heap w ++ h') !! r = Some (elems ++ [f]).
Proof.
  intros Hwf Hm Hs. apply lookup_lt_is_Some_2 in Hm as [c Hc].
  destruct (build_cases m p f w)
    as [(Hn & _) | [(c0 & v & o & Hm & Hl & E)
       | [(c0 & _ & _ & Hn & _) | (c0 & el & Hm & Hl & Hs' & E)]]];
    try congruence.
  - exists v, o, []. rewrite app_nil_r. split; [exact E | ].
    apply memo_lookup_Some in Hl.
    destruct (Hwf m c0 Hm) as (_ & _ & Hcont).
    destruct (Hcont p f v) as (el & Hel & Hv).
    { rewrite Hl. apply elem_of_cons. left. reflexivity. }
    rewrite Hs in Hel. injection Hel as <-. exact Hv.
  - exists (length (heap w)), c0, [el ++ [f]]. split; [exact E | ].
    rewrite Hs in Hs'. injection Hs' as <-.
    apply list_lookup_middle. reflexivity.
Qed.

(** The memoized builder on a reachable world, in terms of what the spread
    of the previous stack reads. *)
Lemma stack_builder_memoized (ops : list op) (st : S) (m : nat)
    (previousStack : option nat) (newFunction : nat) (elems : list nat) :
  m < length (memos (run ops (init_world st))) ->
  stack_contents (heap (run ops (init_world st))) previousStack = Some elems ->
  exists r w1,
    getFunctionStackMemoized m previousStack newFunction
      (run ops (init_world st)) = (Returned r, w1)
    /\ heap w1 !! r = Some (elems ++ [newFunction])
    /\ getFunctionStackMemoized m previousStack newFunction w1
       = (Returned r, w1)
    /\ forall previousStack' newFunction' elems',
         (previousStack', newFunction') <> (previousStack, newFunction) ->
         stack_contents (heap w1) previousStack' = Some elems' ->
         exists r' w2,
           getFunctionStackMemoized m previousStack' newFunction' w1
           = (Returned r', w2)
           /\ r' <> r
           /\ heap w2 !! r' = Some (elems' ++ [newFunction'])
           /\ heap w2 !! r = Some (elems ++ [newFunction]).
Proof.
  set (w := run ops (init_world st)). intros Hm Hs.
  destruct (run_invariant ops st) as [Hwf _]. fold w in Hwf.
  destruct (build_returns m previousStack newFunction elems w Hwf Hm Hs)
    as (r & others & h' & E & Hr).
  pose proof (build_preserves_wf m previousStack newFunction w Hwf) as Hwf1.
  rewrite E in Hwf1. simpl in Hwf1.
  eexists r, _. split; [exact E | ]. split; [exact Hr | ].
  set (c1 := (previousStack, newFunction, r) :: others) in *.
  set (w1 := World (registry w) (console w) (filters w)
               (<[m := c1]> (memos w)) (heap w ++ h')) in *.
  assert (Hc1 : memos w1 !! m = Some c1)
    by (simpl; apply list_lookup_insert_eq; exact Hm).
  split.
  - unfold getFunctionStackMemoized. rewrite Hc1. unfold c1 at 1.
    rewrite memo_lookup_head. fold c1.
    unfold mbind, M_bind, set_cache, mret, M_ret. simpl.
    rewrite list_insert_insert_eq. reflexivity.
  - intros p' f' elems' Hne Hs'.
    assert (Hm1 : m < length (memos w1))
      by (eapply lookup_lt_Some; exact Hc1).
    destruct (build_cases m p' f' w1)
      as [(Hn & _) | [(c0 & v & o & Hm0 & Hl & E')
         | [(c0 & _ & _ & Hn & _) | (c0 & el & Hm0 & Hl & Hs0 & E')]]];
      try congruence.
    + rewrite Hc1 in Hm0. injection Hm0 as <-.
      exists v. eexists. split; [exact E' | ]. simpl.
      pose proof (memo_lookup_Some _ _ _ _ Hl) as Hperm.
      destruct (Hwf1 m c1 Hc1) as (_ & Hvals & Hcont).
      assert (Hin : (p', f', v) ∈ others).
      { assert (Hin : (p', f', v) ∈ c1)
          by (rewrite Hperm; apply elem_of_cons; left; reflexivity).
        unfold c1 in Hin. apply elem_of_cons in Hin as [Heq | Hin];
          [ | exact Hin].
        exfalso. apply Hne. congruence. }
      split; [ | split; [ | exact Hr]].
      * intros ->. unfold c1 in Hvals. simpl in Hvals.
        apply NoDup_cons in Hvals as [Hnotin _]. apply Hnotin.
        apply list_elem_of_fmap. exists (p', f', r). split; [reflexivity | exact Hin].
      * destruct (Hcont p' f' v) as (el & Hel & Hv).
        { unfold c1. apply elem_of_cons. right. exact Hin. }
        change (stack_contents (heap w1) p' = Some el) in Hel.
        rewrite Hs' in Hel. injection Hel as <-. exact Hv.
    + exists (length (heap w1)). eexists. split; [exact E' | ]. simpl.
      rewrite Hs' in Hs0. injection Hs0 as <-.
      split; [ | split].
      * apply lookup_lt_Some in Hr. simpl. lia.
      * apply list_lookup_middle. reflexivity.
      * apply lookup_app_l_Some. exact Hr.
Qed.

(** C8: on every world the program reaches, the stack builder of a
    registration, called with a previous stack and a new function, returns
    an array that holds the elements of the previous stack (the elements the
    heap has at that reference; none when the previous stack is [undefined])
    followed by the new function; a second call with the same arguments
    returns the same array and changes nothing; a call with other arguments
    returns another array, with its own concatenation, and leaves the first
    array as it was. *)
Theorem C8_function_stack_memoized (ops : list op) (st : S) (m : nat)
    (previousStack : option nat) (newFunction : nat) (elems : list nat) :
  m < length (memos (run ops (init_world st))) ->
  match previousStack with
  | Some p => heap (run ops (init_world st)) !! p = Some elems
  | None => elems = []
  end ->
  exists r w1,
    getFunctionStackMemoized m previousStack newFunction
      (run ops (init_world st)) = (Returned r, w1)
    /\ heap w1 !! r = Some (elems ++ [newFunction])
    /\ getFunctionStackMemoized m previousStack newFunction w1
       = (Returned r, w1)
    /\ forall previousStack' newFunction' elems',
         (previousStack', newFunction') <> (previousStack, newFunction) ->
         match previousStack' with
         | Some p' => heap w1 !! p' = Some elems'
         | None => elems' = []
         end ->
         exists r' w2,
           getFunctionStackMemoized m previousStack' newFunction' w1
           = (Returned r', w2)
           /\ r' <> r
           /\ heap w2 !! r' = Some (elems' ++ [newFunction'])
           /\ heap w2 !! r = Some (elems ++ [newFunction]).
Proof.
  intros Hm Hprev.
  assert (Hempty : heap (run ops (init_world st)) !! EMPTY_ARRAY = Some [])
    by (apply run_heap_mono; reflexivity).
  assert (Hs : stack_contents (heap (run ops (init_world st))) previousStack
               = Some elems).
  { destruct previousStack as [p | ]; [exact Hprev | ].
    subst elems. exact Hempty. }
  destruct (stack_builder_memoized ops st m previousStack newFunction elems
              Hm Hs) as (r & w1 & E & Hr & Eagain & Hother).
  exists r, w1. split; [exact E | ]. split; [exact Hr | ].
  split; [exact Eagain | ].
  intros previousStack' newFunction' elems' Hne Hprev'.
  apply (Hother previousStack' newFunction' elems' Hne).
  destruct previousStack' as [p' | ]; [exact Hprev' | ].
  subst elems'.
  pose proof (heap_lookup_preserved
                (Build m previousStack newFunction)
                (run ops (init_world st)) EMPTY_ARRAY [] Hempty) as Hk.
  simpl in Hk. rewrite E in Hk. exact Hk.
Qed.

(** C9, as the function has it: every successful registration creates a
    memoization cache of its own, empty at first; no operation ever drops a
    cache or an entry of one; and a cache holds at most one entry for each
    pair of arguments, all of them pairs its own builder was called with. *)
Theorem C9_cache_per_registration (ops : list op) (st : S) :
  (forall m c, memos (run ops (init_world st)) !! m = Some c ->
     NoDup c.*1 /\ forall k, k ∈ c.*1 -> Build m k.1 k.2 ∈ ops)
  /\ (forall o m c, memos (run ops (init_world st)) !! m = Some c ->
        exists c', memos (exec o (run ops (init_world st))) !! m = Some c'
                   /\ c ⊆ c')
  /\ (forall name settings d w',
        registerFormatType name settings (run ops (init_world st))
          = (Returned (Some d), w') ->
        memos w' = memos (run ops (init_world st)) ++ [[]]).
Proof.
  destruct (run_invariant ops st) as [Hwf Hseen].
  split; [ | split].
  - intros m c Hc. split.
    + destruct (Hwf m c Hc) as (Hk & _). exact Hk.
    + intros k Hk. apply (Hseen m c k Hc Hk).
  - intros o m c Hc. apply exec_memo_mono. exact Hc.
  - intros name settings d w' E.
    apply register_success_inv in E as (_ & -> & _). reflexivity.
Qed.

End Memo.

(** ** The claims at concrete inputs *)

Lemma C1_witness :
  exists w',
    registerFormatType (VStr "my-plugin/highlight") highlight w0
    = (Returned (Some (<["name" := VStr "my-plugin/highlight"]> highlight)), w')
    /\ registry w'
       = addFormatTypes (<["name" := VStr "my-plugin/highlight"]> highlight)
           (registry w0)
    /\ console w' = console w0.
Proof.
  apply (C1_valid_registration "my-plugin/highlight" "mark" "Highlight"
           highlight w0).
  - vm_compute. reflexivity.
  - apply test_lang. vm_compute. reflexivity.
  - vm_compute. reflexivity.
  - vm_compute. reflexivity.
  - discriminate.
  - left. exists "my-highlight". split; [vm_compute; reflexivity | ].
    split; [apply test_lang; vm_compute; reflexivity | vm_compute; reflexivity].
  - vm_compute. reflexivity.
  - discriminate.
  - left. vm_compute. reflexivity.
Defined.

Example first_failing_rule_aborts_four_keywords :
  registerFormatType (VStr "my-plugin/bold") four_keywords w0
  = (Returned None,
     logged (diagnostic (registry w0)
               (spread_name (VStr "my-plugin/bold") four_keywords) 10) w0).
Proof.
  apply (first_failing_rule_aborts (VStr "my-plugin/bold") four_keywords w0 10).
  - vm_compute. reflexivity.
  - discriminate.
Qed.

(** C2: the function breaks the claim on
    [registerFormatType( 'my-plugin/bold', { tagName: 'b', className: null,
    title: 5, keywords: null } )].  Rules 1 to 10 pass and rule 11 (the title
    must be a string) is the first rule that fails, so the call should log
    the title diagnostic and return [undefined]; instead reading
    [settings.keywords.length] on line 132 throws a TypeError, nothing is
    logged and nothing is returned. *)
Theorem C2_null_keywords_throws :
  first_failing (registry w0) (spread_name (VStr "my-plugin/bold") numbered)
    = Some 11
  /\ registerFormatType (VStr "my-plugin/bold") numbered w0 = (Threw no_length, w0)
  /\ console (snd (registerFormatType (VStr "my-plugin/bold") numbered w0)) = [].
Proof. repeat split; vm_compute; reflexivity. Qed.

Lemma C3_witness :
  exists w',
    registerFormatType (VStr "My-Plugin") highlight w0 = (Returned None, w')
    /\ registry w' = registry w0
    /\ console w' = console w0 ++ [msg_name_pattern].
Proof.
  apply (C3_bad_name_rejected (VStr "My-Plugin") highlight w0 "My-Plugin").
  - vm_compute. reflexivity.
  - apply test_not_lang. vm_compute. reflexivity.
Defined.

Lemma C4_witness :
  exists w2,
    registerFormatType (VStr "my-plugin/highlight") strong
      (committed (VStr "my-plugin/highlight")
         (<["name" := VStr "my-plugin/highlight"]> highlight) w0)
    = (Returned None, w2)
    /\ registry w2
       = registry (committed (VStr "my-plugin/highlight")
                     (<["name" := VStr "my-plugin/highlight"]> highlight) w0)
    /\ registry w2 !! "my-plugin/highlight"
       = Some (<["name" := VStr "my-plugin/highlight"]> highlight)
    /\ console w2
       = console (committed (VStr "my-plugin/highlight")
                    (<["name" := VStr "my-plugin/highlight"]> highlight) w0)
         ++ [msg_registered (VStr "my-plugin/highlight")].
Proof.
  apply (C4_second_registration_rejected (VStr "my-plugin/highlight")
           (VStr "my-plugin/highlight") highlight strong
           (<["name" := VStr "my-plugin/highlight"]> highlight)
           "my-plugin/highlight" w0).
  - vm_compute. reflexivity.
  - vm_compute. reflexivity.
  - vm_compute. reflexivity.
Defined.

Lemma C5_witness :
  (exists w',
     registerFormatType (VStr "my-plugin/strong") strong
       (committed (VStr "core/bold") (<["name" := VStr "core/bold"]> bold) w0)
     = (Returned None, w')
     /\ registry w'
        = registry (committed (VStr "core/bold")
                      (<["name" := VStr "core/bold"]> bold) w0))
  /\ registerFormatType (VStr "my-plugin/strong") strong
       (committed (VStr "core/italic") (<["name" := VStr "core/italic"]> italic) w0)
     = (Returned (Some (spread_name (VStr "my-plugin/strong") strong)),
        committed (VStr "my-plugin/strong")
          (spread_name (VStr "my-plugin/strong") strong)
          (committed (VStr "core/italic")
             (<["name" := VStr "core/italic"]> italic) w0)).
Proof.
  split.
  - apply (C5_bare_element_conflict (VStr "my-plugin/strong") strong "strong"
             (committed (VStr "core/bold") (<["name" := VStr "core/bold"]> bold) w0));
      [vm_compute; reflexivity | vm_compute; reflexivity | ].
    exists "core/bold", (<["name" := VStr "core/bold"]> bold).
    split; [ | split]; vm_compute; reflexivity.
  - apply (C5_bare_element_conflict (VStr "my-plugin/strong") strong "strong"
             (committed (VStr "core/italic")
                (<["name" := VStr "core/italic"]> italic) w0));
      [vm_compute; reflexivity | vm_compute; reflexivity | |
       vm_compute; reflexivity | vm_compute; reflexivity].
    intros n old Hlook. left.
    change (registry (committed (VStr "core/italic")
                        (<["name" := VStr "core/italic"]> italic) w0))
      with (<["core/italic" := <["name" := VStr "core/italic"]> italic]>
              (∅ : gmap string obj)) in Hlook.
    apply lookup_insert_Some in Hlook as [[_ <-] | [_ Hlook]].
    + vm_compute. discriminate.
    + rewrite lookup_empty in Hlook. discriminate.
Defined.

Lemma C6_witness :
  registerFormatType (VStr "my-plugin/digit") digit_class w0
  = (Returned None, logged msg_class_pattern w0).
Proof.
  apply (C6_class_name_pattern (VStr "my-plugin/digit") digit_class w0).
  - vm_compute. reflexivity.
  - vm_compute. reflexivity.
Defined.

Lemma C7_witness :
  registerFormatType (VStr "my-plugin/bold") four_keywords w0
  = (Returned None,
     logged (msg_keywords
               (getp (spread_name (VStr "my-plugin/bold") four_keywords) "name"))
       w0)
  /\ registerFormatType (VStr "my-plugin/bold") three_keywords w0
     = (Returned (Some (spread_name (VStr "my-plugin/bold") three_keywords)),
        committed (VStr "my-plugin/bold")
          (spread_name (VStr "my-plugin/bold") three_keywords) w0).
Proof.
  split.
  - apply (C7_keywords_limit (VStr "my-plugin/bold") four_keywords w0
             [VStr "a"; VStr "b"; VStr "c"; VStr "d"]).
    + vm_compute. reflexivity.
    + vm_compute. reflexivity.
    + reflexivity.
  - apply (C7_keywords_limit (VStr "my-plugin/bold") three_keywords w0
             [VStr "a"; VStr "b"; VStr "c"]).
    + vm_compute. reflexivity.
    + vm_compute. reflexivity.
    + reflexivity.
Defined.

Lemma C8_witness :
  exists r w1,
    getFunctionStackMemoized 0 (Some 1) 8
      (run [Register (VStr "core/bold") bold; Build 0 None 7]
         (init_world (∅ : gmap string obj)))
    = (Returned r, w1)
    /\ heap w1 !! r = Some ([7] ++ [8])
    /\ getFunctionStackMemoized 0 (Some 1) 8 w1 = (Returned r, w1)
    /\ forall previousStack' newFunction' elems',
         (previousStack', newFunction') <> (Some 1, 8) ->
         match previousStack' with
         | Some p' => heap w1 !! p' = Some elems'
         | None => elems' = []
         end ->
         exists r' w2,
           getFunctionStackMemoized 0 previousStack' newFunction' w1
           = (Returned r', w2)
           /\ r' <> r
           /\ heap w2 !! r' = Some (elems' ++ [newFunction'])
           /\ heap w2 !! r = Some ([7] ++ [8]).
Proof.
  apply (C8_function_stack_memoized
           [Register (VStr "core/bold") bold; Build 0 None 7]
           (∅ : gmap string obj) 0 (Some 1) 8 [7]).
  - vm_compute. lia.
  - vm_compute. reflexivity.
Defined.

(** C9 as stated fails: two registrations have two caches, and their stack
    builders, called with the same arguments, return two different arrays. *)
Lemma C9_counterexample :
  length (memos (run [Register (VStr "core/bold") bold;
                      Register (VStr "core/italic") italic] w0)) = 2
  /\ fst (getFunctionStackMemoized 0 None 7
            (run [Register (VStr "core/bold") bold;
                  Register (VStr "core/italic") italic] w0)) = Returned 1
  /\ fst (getFunctionStackMemoized 1 None 7
            (snd (getFunctionStackMemoized 0 None 7
                    (run [Register (VStr "core/bold") bold;
                          Register (VStr "core/italic") italic] w0))))
     = Returned 2.
Proof. repeat split; vm_compute; reflexivity. Qed.

Lemma C10_witness :
  (fst (registerFormatType (VNum 5) self_named w0) = Returned (Some self_named)
   /\ getp self_named "name" = VStr "my-plugin/own"
   /\ registry (snd (registerFormatType (VNum 5) self_named w0))
      = addFormatTypes self_named (registry w0))
  /\ registerFormatType (VStr "my-plugin/fine") badly_named w0
     = (Returned None, logged msg_name_pattern w0)
  /\ registerFormatType (VStr "my-plugin/fresh") self_named
       (committed (VStr "my-plugin/own") self_named w0)
     = (Returned None,
        logged (msg_registered (VStr "my-plugin/own"))
          (committed (VStr "my-plugin/own") self_named w0)).
Proof.
  split; [ | split].
  - apply (C10_settings_name_overrides (VNum 5) (VStr "my-plugin/own")
             self_named w0); vm_compute; reflexivity.
  - destruct (C10_settings_name_overrides (VStr "my-plugin/fine")
                (VStr "My Plugin") badly_named w0) as (_ & Hpattern & _);
      [vm_compute; reflexivity | ].
    apply (Hpattern "My Plugin"); [reflexivity | ].
    apply test_not_lang. vm_compute. reflexivity.
  - destruct (C10_settings_name_overrides (VStr "my-plugin/fresh")
                (VStr "my-plugin/own") self_named
                (committed (VStr "my-plugin/own") self_named w0))
      as (_ & _ & Hregistered & _); [vm_compute; reflexivity | ].
    apply (Hregistered "my-plugin/own"); [reflexivity | | ].
    + apply test_lang. vm_compute. reflexivity.
    + vm_compute. eauto.
Defined.

(** ** The props a hook receives *)

Section PropsByPrefix.

Lemma append_cancel (prefix a b : string) :
  prefix +:+ a = prefix +:+ b -> a = b.
Proof.
  induction prefix as [ | c prefix IH]; intros E.
  - exact E.
  - rewrite !append_cons in E. injection E as E. auto.
Qed.

#[local] Instance append_prefix_inj (prefix : string) :
  Inj (=) (=) (String.append prefix).
Proof. intros a b. apply append_cancel. Qed.

Lemma startsWith_append (prefix rest : string) :
  startsWith (prefix +:+ rest) prefix = true.
Proof.
  induction prefix as [ | c prefix IH]; [reflexivity | ].
  rewrite append_cons. simpl. rewrite IH.
  rewrite bool_decide_eq_true_2 by reflexivity. reflexivity.
Qed.

Lemma slice_append (prefix rest : string) :
  slice (prefix +:+ rest) (String.length prefix) = rest.
Proof.
  induction prefix as [ | c prefix IH]; [reflexivity | ].
  rewrite append_cons. simpl. exact IH.
Qed.

Lemma startsWith_inv (key prefix : string) :
  startsWith key prefix = true ->
  key = prefix +:+ slice key (String.length prefix).
Proof.
  revert key. induction prefix as [ | p prefix IH]; intros key; simpl.
  - reflexivity.
  - destruct key as [ | c key]; [discriminate | ].
    intros E. apply andb_true_iff in E as [Ec E].
    apply bool_decide_eq_true in Ec as ->.
    rewrite append_cons. f_equal. apply IH. exact E.
Qed.

Lemma startsWith_spec (key prefix : string) :
  startsWith key prefix = true <-> exists rest, key = prefix +:+ rest.
Proof.
  split.
  - intros E. eexists. apply startsWith_inv. exact E.
  - intros [rest ->]. apply startsWith_append.
Qed.

Lemma fold_pick_None (props : obj) (prefix : string) (keys : list string) :
  fold_left (pick_prefixed props prefix) keys None = None.
Proof. induction keys as [ | key keys IH]; [reflexivity | exact IH]. Qed.

(** What the reduction over a list of keys builds from an accumulator. *)
Lemma fold_pick_lookup (props : obj) (prefix : string) (keys : list string) :
  forall acc bag,
    fold_left (pick_prefixed props prefix) keys (Some acc) = Some bag ->
    (forall key, key ∈ keys -> is_Some (props !! key)) ->
    forall k,
      bag !! k =
      if decide (k = "__proto__") then acc !! k
      else if decide (prefix +:+ k ∈ keys) then props !! (prefix +:+ k)
      else acc !! k.
Proof.
  induction keys as [ | key keys IH]; intros acc bag Hfold Hkeys k.
  - simpl in Hfold. injection Hfold as <-.
    destruct (decide (k = "__proto__")); [reflexivity | ].
    rewrite decide_False by apply not_elem_of_nil. reflexivity.
  - simpl in Hfold.
    assert (Hrest : forall key', key' ∈ keys -> is_Some (props !! key'))
      by (intros key' Hin; apply Hkeys; apply elem_of_cons; auto).
    destruct (startsWith key prefix) eqn:Hsw.
    + unfold assign in Hfold.
      pose proof (startsWith_inv _ _ Hsw) as Hkey.
      set (k' := slice key (String.length prefix)) in *.
      destruct (decide (k' = "__proto__")) as [Hp | Hp].
      * destruct (is_object_or_null (getp props key));
          [rewrite fold_pick_None in Hfold; discriminate | ].
        rewrite (IH _ _ Hfold Hrest k).
        destruct (decide (k = "__proto__")); [reflexivity | ].
        assert (Hne : prefix +:+ k <> key)
          by (rewrite Hkey; intros E; apply append_cancel in E; congruence).
        destruct (decide (prefix +:+ k ∈ keys)) as [Hin | Hnin].
        -- rewrite decide_True by (apply elem_of_cons; auto). reflexivity.
        -- rewrite decide_False; [reflexivity | ].
           rewrite elem_of_cons. intros [E | E]; [congruence | contradiction].
      * rewrite (IH _ _ Hfold Hrest k).
        destruct (decide (k = "__proto__")) as [-> | Hk].
        -- rewrite lookup_insert_ne by exact Hp. reflexivity.
        -- destruct (decide (prefix +:+ k ∈ keys)) as [Hin | Hnin].
           ++ rewrite decide_True by (apply elem_of_cons; auto). reflexivity.
           ++ destruct (decide (k' = k)) as [E | E].
              ** rewrite decide_True
                   by (apply elem_of_cons; left; rewrite Hkey, E; reflexivity).
                 rewrite E, lookup_insert_eq. rewrite <- E, <- Hkey.
                 destruct (Hkeys key) as [v Hv]; [apply elem_of_cons; auto | ].
                 rewrite (getp_lookup _ _ _ Hv). symmetry. exact Hv.
              ** rewrite lookup_insert_ne by exact E.
                 rewrite decide_False; [reflexivity | ].
                 rewrite elem_of_cons. intros [E' | E']; [ | contradiction].
                 apply E. rewrite Hkey in E'. apply append_cancel in E'.
                 congruence.
    + rewrite (IH _ _ Hfold Hrest k).
      destruct (decide (k = "__proto__")); [reflexivity | ].
      assert (Hne : prefix +:+ k <> key).
      { intros <-. rewrite startsWith_append in Hsw. discriminate. }
      destruct (decide (prefix +:+ k ∈ keys)) as [Hin | Hnin].
      * rewrite decide_True by (apply elem_of_cons; auto). reflexivity.
      * rewrite decide_False; [reflexivity | ].
        rewrite elem_of_cons. intros [E | E]; [congruence | contradiction].
Qed.

(** When the reduction is defined. *)
Lemma fold_pick_is_Some (props : obj) (prefix : string) (keys : list string) :
  forall acc,
    is_Some (fold_left (pick_prefixed props prefix) keys (Some acc))
    <-> (prefix +:+ "__proto__" ∈ keys ->
         is_object_or_null (getp props (prefix +:+ "__proto__")) = false).
Proof.
  induction keys as [ | key keys IH]; intros acc; simpl.
  - split; [intros _ Hin; apply elem_of_nil in Hin; contradiction | eauto].
  - destruct (startsWith key prefix) eqn:Hsw.
    + unfold assign. pose proof (startsWith_inv _ _ Hsw) as Hkey.
      set (k' := slice key (String.length prefix)) in *.
      destruct (decide (k' = "__proto__")) as [Hp | Hp].
      * rewrite Hp in Hkey. rewrite <- Hkey.
        destruct (is_object_or_null (getp props key)) eqn:Hobj.
        -- rewrite fold_pick_None. split.
           ++ intros [? E]. discriminate E.
           ++ intros Hq. exfalso.
              assert (true = false) by (apply Hq; apply elem_of_cons; auto).
              discriminate.
        -- rewrite IH. rewrite <- Hkey. split; auto.
      * rewrite IH. split; intros Hq Hin; apply Hq.
        -- apply elem_of_cons in Hin as [E | Hin]; [ | exact Hin].
           exfalso. apply Hp. rewrite Hkey in E.
           apply append_cancel in E. congruence.
        -- apply elem_of_cons. auto.
    + rewrite IH. split; intros Hq Hin; apply Hq.
      * apply elem_of_cons in Hin as [E | Hin]; [ | exact Hin].
        exfalso. rewrite <- E, startsWith_append in Hsw. discriminate.
      * apply elem_of_cons. auto.
Qed.

Lemma elem_of_keys (props : obj) (key : string) :
  key ∈ (map_to_list props).*1 <-> is_Some (props !! key).
Proof.
  rewrite list_elem_of_fmap. split.
  - intros ([k v] & -> & Hin). apply elem_of_map_to_list in Hin. eauto.
  - intros [v Hv]. exists (key, v). split; [reflexivity | ].
    apply elem_of_map_to_list. exact Hv.
Qed.

(** The own properties of the object [getPropsByPrefix] returns. *)
Lemma props_by_prefix_lookup (props bag : obj) (prefix k : string) :
  getPropsByPrefix props prefix = Some bag ->
  bag !! k = if decide (k = "__proto__") then None
             else props !! (prefix +:+ k).
Proof.
  unfold getPropsByPrefix, getPropsByPrefix_over. intros Hfold.
  rewrite (fold_pick_lookup _ _ _ _ _ Hfold)
    by (intros key Hin; apply elem_of_keys; exact Hin).
  destruct (decide (k = "__proto__")); [apply lookup_empty | ].
  destruct (decide (prefix +:+ k ∈ (map_to_list props).*1)) as [Hin | Hnin];
    [reflexivity | ].
  rewrite lookup_empty. symmetry. apply eq_None_not_Some.
  intros Hs. apply Hnin. apply elem_of_keys. exact Hs.
Qed.

(** The reduction stays within plain objects unless the props hold an
    object or [null] under the prefix followed by [__proto__]. *)
Lemma getPropsByPrefix_defined (props : obj) (prefix : string) :
  is_Some (getPropsByPrefix props prefix)
  <-> is_object_or_null (getp props (prefix +:+ "__proto__")) = false.
Proof.
  unfold getPropsByPrefix, getPropsByPrefix_over.
  rewrite fold_pick_is_Some. rewrite elem_of_keys. split.
  - intros Hq. destruct (props !! (prefix +:+ "__proto__")) as [v | ] eqn:Hv.
    + apply Hq. eauto.
    + unfold getp. rewrite Hv. reflexivity.
  - auto.
Qed.


Lemma mapKeys_prefix_lookup (prefix : string) (o : obj) (k : string) :
  mapKeys_prefix prefix o !! (prefix +:+ k) = o !! k.
Proof.
  exact (lookup_kmap (M1 := gmap string) (M2 := gmap string)
           (String.append prefix) o k).
Qed.

Lemma mapKeys_prefix_is_Some (prefix : string) (o : obj) (key : string) :
  is_Some (mapKeys_prefix prefix o !! key) -> startsWith key prefix = true.
Proof.
  intros Hs.
  apply (lookup_kmap_is_Some (M1 := gmap string) (M2 := gmap string)
           (String.append prefix)) in Hs as (k & -> & _).
  apply startsWith_append.
Qed.

(** Props written under a prefix are read back by the same prefix. *)
Lemma props_by_prefix_mapKeys (prefix : string) (o rest : obj) :
  o !! "__proto__" = None ->
  (forall key, is_Some (rest !! key) -> startsWith key prefix = false) ->
  getPropsByPrefix (mapKeys_prefix prefix o ∪ rest) prefix = Some o.
Proof.
  intros Hproto Hrest.
  assert (Hlook : forall k, (mapKeys_prefix prefix o ∪ rest) !! (prefix +:+ k)
                            = o !! k).
  { intros k. rewrite lookup_union_l; [apply mapKeys_prefix_lookup | ].
    apply eq_None_not_Some. intros Hs. apply Hrest in Hs.
    rewrite startsWith_append in Hs. discriminate. }
  destruct (getPropsByPrefix (mapKeys_prefix prefix o ∪ rest) prefix)
    as [bag | ] eqn:Hbag.
  - f_equal. apply map_eq. intros k.
    rewrite (props_by_prefix_lookup _ _ _ k Hbag).
    destruct (decide (k = "__proto__")) as [-> | Hk]; [congruence | apply Hlook].
  - exfalso. apply eq_None_not_Some in Hbag. apply Hbag.
    apply getPropsByPrefix_defined. unfold getp.
    rewrite Hlook, Hproto. reflexivity.
Qed.

Lemma all_chars_impl (p q : ascii -> bool) (s : string) :
  (forall c, p c = true -> q c = true) ->
  Regex.all_chars p s = true -> Regex.all_chars q s = true.
Proof.
  intros Hpq. induction s as [ | c s IH]; simpl; [reflexivity | ].
  intros E. apply andb_true_iff in E as [Hc Hs].
  rewrite (Hpq c Hc), (IH Hs). reflexivity.
Qed.

Lemma all_chars_append (p : ascii -> bool) (s1 s2 : string) :
  Regex.all_chars p (s1 +:+ s2)
  = Regex.all_chars p s1 && Regex.all_chars p s2.
Proof.
  induction s1 as [ | c s1 IH]; [reflexivity | ].
  rewrite append_cons. simpl. rewrite IH. apply andb_assoc.
Qed.

Lemma lower_digit_dash_not_paren (c : ascii) :
  Regex.lower_digit_dash c = true -> not_paren c = true.
Proof.
  unfold not_paren, Regex.is_char.
  destruct (decide (c = ")"%char)) as [-> | Hne]; [discriminate | ].
  intros _. rewrite bool_decide_eq_false_2 by exact Hne. reflexivity.
Qed.

Lemma slug_not_paren (s : string) :
  Regex.slug s -> Regex.all_chars not_paren s = true.
Proof.
  intros (c & rest & -> & Hc & Hrest). simpl.
  rewrite (all_chars_impl _ _ _ lower_digit_dash_not_paren Hrest).
  rewrite lower_digit_dash_not_paren; [reflexivity | ].
  unfold Regex.lower_digit_dash. rewrite Hc. reflexivity.
Qed.

Lemma name_not_paren (n : string) :
  Regex.lang name_pattern n -> Regex.all_chars not_paren n = true.
Proof.
  intros L. apply name_pattern_spec in L as (ns & sl & -> & Hns & Hsl).
  rewrite !all_chars_append, (slug_not_paren _ Hns), (slug_not_paren _ Hsl).
  reflexivity.
Qed.

Lemma paren_delimits (n1 n2 r1 r2 : string) :
  Regex.all_chars not_paren n1 = true -> Regex.all_chars not_paren n2 = true ->
  n1 +:+ String ")"%char r1 = n2 +:+ String ")"%char r2 -> n1 = n2.
Proof.
  revert n2. induction n1 as [ | c n1 IH]; intros [ | c2 n2] H1 H2 E.
  - reflexivity.
  - rewrite append_cons in E. injection E as <- _.
    simpl in H2. discriminate H2.
  - rewrite append_cons in E. injection E as -> _.
    simpl in H1. discriminate H1.
  - rewrite !append_cons in E. injection E as -> E.
    simpl in H1, H2. apply andb_true_iff in H1 as [_ H1].
    apply andb_true_iff in H2 as [_ H2]. f_equal. eauto.
Qed.

(** For names that match the name pattern, a prop key starts with the select
    prefix of at most one name and with the dispatch prefix of at most one
    name, and a key that starts with a select prefix starts with no dispatch
    prefix. *)
Lemma prefix_decides_name (n1 n2 key : string) :
  Regex.lang name_pattern n1 -> Regex.lang name_pattern n2 ->
  (startsWith key (selectPrefix (VStr n1)) = true ->
   startsWith key (selectPrefix (VStr n2)) = true -> n1 = n2)
  /\ (startsWith key (dispatchPrefix (VStr n1)) = true ->
      startsWith key (dispatchPrefix (VStr n2)) = true -> n1 = n2)
  /\ (startsWith key (selectPrefix (VStr n1)) = true ->
      startsWith key (dispatchPrefix (VStr n2)) = false).
Proof.
  intros L1 L2. apply name_not_paren in L1. apply name_not_paren in L2.
  unfold selectPrefix, dispatchPrefix. simpl ToString.
  split; [ | split].
  - intros E1 E2. apply startsWith_spec in E1 as [r1 E1].
    apply startsWith_spec in E2 as [r2 E2]. rewrite E1 in E2.
    rewrite !append_assoc in E2. apply append_cancel in E2.
    apply (paren_delimits _ _ _ _ L1 L2 E2).
  - intros E1 E2. apply startsWith_spec in E1 as [r1 E1].
    apply startsWith_spec in E2 as [r2 E2]. rewrite E1 in E2.
    rewrite !append_assoc in E2. apply append_cancel in E2.
    apply (paren_delimits _ _ _ _ L1 L2 E2).
  - intros E1. apply startsWith_spec in E1 as [r1 ->].
    rewrite !append_assoc. reflexivity.
Qed.

(** What [getPropsByPrefix] returns depends only on the props under keys
    that start with the prefix. *)
Lemma getPropsByPrefix_agree (props props' : obj) (prefix : string) :
  (forall k, props !! (prefix +:+ k) = props' !! (prefix +:+ k)) ->
  getPropsByPrefix props prefix = getPropsByPrefix props' prefix.
Proof.
  intros Hagree.
  assert (Hdef : is_Some (getPropsByPrefix props prefix)
                 <-> is_Some (getPropsByPrefix props' prefix)).
  { rewrite !getPropsByPrefix_defined. unfold getp. rewrite Hagree.
    reflexivity. }
  destruct (getPropsByPrefix props prefix) as [bag | ] eqn:E,
    (getPropsByPrefix props' prefix) as [bag' | ] eqn:E'.
  - f_equal. apply map_eq. intros k.
    rewrite (props_by_prefix_lookup _ _ _ k E),
      (props_by_prefix_lookup _ _ _ k E'), Hagree. reflexivity.
  - destruct Hdef as [Hdef _]. destruct Hdef as [x Hx]; [eauto | discriminate Hx].
  - destruct Hdef as [_ Hdef]. destruct Hdef as [x Hx]; [eauto | discriminate Hx].
  - reflexivity.
Qed.

(** X4: the object the change hook receives on lines 176 to 179 has, under
    each key other than [__proto__], the prop with the dispatch prefix when
    there is one, and the prop with the select prefix otherwise. *)
Theorem change_props_lookup (name : value) (props bag : obj) (k : string) :
  change_props name props = Some bag ->
  bag !! k =
  if decide (k = "__proto__") then None
  else match props !! (dispatchPrefix name +:+ k) with
       | Some v => Some v
       | None => props !! (selectPrefix name +:+ k)
       end.
Proof.
  unfold change_props. intros E.
  destruct (getPropsByPrefix props (selectPrefix name)) as [s | ] eqn:Hs;
    [ | discriminate E].
  destruct (getPropsByPrefix props (dispatchPrefix name)) as [d | ] eqn:Hd;
    [ | discriminate E].
  simpl in E. injection E as <-.
  rewrite lookup_union.
  rewrite (props_by_prefix_lookup _ _ _ k Hs),
    (props_by_prefix_lookup _ _ _ k Hd).
  destruct (decide (k = "__proto__")); [reflexivity | ].
  destruct (props !! (dispatchPrefix name +:+ k)),
    (props !! (selectPrefix name +:+ k)); reflexivity.
Qed.

(** X1: [getPropsByPrefix( props, prefix )] returns the object [bag] exactly
    when [props] holds no object and no [null] under [prefix + '__proto__']
    and [bag] has, under each key [k] other than [__proto__], what [props]
    has under [prefix + k], and nothing under [__proto__]; the order in which
    the keys are visited does not matter. *)
Theorem getPropsByPrefix_own_properties (props bag : obj) (prefix : string) :
  getPropsByPrefix props prefix = Some bag <->
  is_object_or_null (getp props (prefix +:+ "__proto__")) = false
  /\ forall k, bag !! k = if decide (k = "__proto__") then None
                          else props !! (prefix +:+ k).
Proof.
  split.
  - intros Hbag. split.
    + apply getPropsByPrefix_defined. rewrite Hbag. eauto.
    + intros k. apply props_by_prefix_lookup. exact Hbag.
  - intros [Hdef Hlook].
    apply getPropsByPrefix_defined in Hdef as [bag' Hbag'].
    rewrite Hbag'. f_equal. apply map_eq. intros k.
    rewrite Hlook. apply props_by_prefix_lookup. exact Hbag'.
Qed.

(** X2: [getPropsByPrefix] undoes [mapKeys] with the same prefix: from props
    that hold an object [o] (without a [__proto__] key) under prefixed keys,
    next to props whose keys do not start with the prefix, it returns [o]. *)
Theorem getPropsByPrefix_recovers_mapKeys (prefix : string) (o rest : obj) :
  o !! "__proto__" = None ->
  (forall key, is_Some (rest !! key) -> startsWith key prefix = false) ->
  getPropsByPrefix (mapKeys_prefix prefix o ∪ rest) prefix = Some o.
Proof. apply props_by_prefix_mapKeys. Qed.

End PropsByPrefix.

(** ** More on the validation sequence *)

Section Outcomes.
Context {S : Type} `{RichTextStore S}.

Ltac split_all E :=
  repeat match type of E with
         | (_ && _ = true) =>
             let R := fresh "R" in apply andb_true_iff in E as [R E]
         end.

Lemma passes_first_9 (st : S) (d : obj) :
  passes_first 9 st d = true <->
  first_failing_from 1 (take 9 (rules st d)) = None.
Proof.
  unfold passes_first, rules. simpl.
  destruct (rule1 d); [ | split; discriminate].
  destruct (rule2 d); [ | split; discriminate].
  destruct (rule3 st d); [ | split; discriminate].
  destruct (rule4 d); [ | split; discriminate].
  destruct (rule5 d); [ | split; discriminate].
  destruct (rule6 d); [ | split; discriminate].
  destruct (rule7 st d); [ | split; discriminate].
  destruct (rule8 st d); [ | split; discriminate].
  destruct (rule9 d); [ | split; discriminate].
  split; reflexivity.
Qed.

Lemma keywords_unreadable (d : obj) :
  keywords_readable d = false <->
  d !! "keywords" = Some VUndefined \/ d !! "keywords" = Some VNull.
Proof.
  unfold keywords_readable.
  destruct (d !! "keywords") as [[ | | b | n | s | l | i ar src] | ]; simpl;
    split; try discriminate; auto; intros [E | E]; discriminate E.
Qed.

(** X6: when rules 1 to 9 pass and the merged settings have [keywords] with
    the value [undefined] or [null], the call throws the TypeError of reading
    [length] on line 132, whatever the title is, and leaves the world as it
    was: nothing is logged, registered or installed. *)
Theorem unreadable_keywords_throw (name : value) (settings : obj)
    (w : world S) :
  passes_first 9 (registry w) (spread_name name settings) = true ->
  spread_name name settings !! "keywords" = Some VUndefined
  \/ spread_name name settings !! "keywords" = Some VNull ->
  registerFormatType name settings w = (Threw no_length, w).
Proof.
  intros P K. rewrite registerFormatType_verdict.
  apply passes_first_9 in P. apply keywords_unreadable in K.
  unfold verdict_of. rewrite P, K. reflexivity.
Qed.

(** A call that passes all rules under settings without a [name] of their
    own was given a name that is a string, matches the name pattern and was
    not registered. *)
Lemma accepted_plain_name (name : value) (settings : obj) (st : S) :
  settings !! "name" = None ->
  first_failing st (spread_name name settings) = None ->
  exists n, name = VStr n /\ Regex.lang name_pattern n
            /\ getFormatType st n = None.
Proof.
  intros Hplain V. apply first_failing_None in V as (R1 & R2 & R3 & _).
  rewrite (spread_name_fresh _ _ Hplain) in *.
  assert (Hname : getp (<["name" := name]> settings) "name" = name)
    by (apply getp_lookup, lookup_insert_eq).
  unfold rule1, rule2, rule3 in *. rewrite Hname in *.
  destruct name as [ | | b | z | n | l | i ar src]; try discriminate R1.
  simpl in *. exists n. split; [reflexivity | ].
  split; [apply test_lang; exact R2 | ].
  destruct (getFormatType st n); [discriminate R3 | reflexivity].
Qed.

(** X7: a descriptor the function returns is the settings merged with the
    name, and it is valid: its name is a string that matches the name pattern
    and was not registered, its tag name is a non-empty string, its class
    name is [null] without a bare handler for the tag or a string that
    matches the class pattern and was not claimed, its title is a non-empty
    string, and its keywords, when present, have no length above 3. *)
Theorem returned_descriptor_is_valid (name : value) (settings d : obj)
    (w w' : world S) :
  registerFormatType name settings w = (Returned (Some d), w') ->
  d = spread_name name settings
  /\ exists n tag title,
       getp d "name" = VStr n /\ Regex.lang name_pattern n
       /\ getFormatType (registry w) n = None
       /\ getp d "tagName" = VStr tag /\ tag <> EmptyString
       /\ ((getp d "className" = VNull
            /\ getFormatTypeForBareElement (registry w) tag = None)
           \/ exists cn, getp d "className" = VStr cn
                /\ Regex.lang class_pattern cn
                /\ getFormatTypeForClassName (registry w) cn = None)
       /\ d !! "title" = Some (VStr title) /\ title <> EmptyString
       /\ (d !! "keywords" = None
           \/ exists v len, d !! "keywords" = Some v
                /\ length_of v = Some len /\ gt3 len = false).
Proof.
  rewrite registerFormatType_verdict.
  destruct (verdict_of _ _) eqn:V; intros E; try discriminate E.
  injection E as <- _. split; [reflexivity | ].
  set (d := spread_name name settings) in *.
  apply verdict_accepted in V as [Hrules KR].
  apply first_failing_None in Hrules
    as (R1 & R2 & R3 & R4 & R5 & R6 & R7 & R8 & R9 & R10 & R11).
  unfold rule1, rule2, rule3 in *.
  destruct (getp d "name") as [ | | b | n0 | n | l | i ar src];
    try discriminate R2.
  unfold rule4, rule5, rule6, rule7, rule8 in *.
  destruct (getp d "tagName") as [ | | b | n0 | tag | l | i ar src];
    try discriminate R4.
  unfold rule9, rule11, getp in *.
  destruct (d !! "title") as [[ | | b | n0 | title | l | i ar src] | ];
    try discriminate R11; try discriminate R9.
  exists n, tag, title. simpl in *.
  split; [reflexivity | ]. split; [apply test_lang; exact R2 | ].
  split.
  { destruct (getFormatType (registry w) n); [discriminate R3 | reflexivity]. }
  split; [reflexivity | ].
  split.
  { intros ->. discriminate R4. }
  split.
  { destruct (default VUndefined (d !! "className"))
      as [ | | b | n0 | cn | l | i ar src]; try discriminate R5.
    - left. split; [reflexivity | ].
      destruct (getFormatTypeForBareElement (registry w) tag);
        [discriminate R7 | reflexivity].
    - right. exists cn. split; [reflexivity | ].
      split; [apply test_lang; exact R6 | ].
      destruct (getFormatTypeForClassName (registry w) cn);
        [discriminate R8 | reflexivity]. }
  split; [reflexivity | ].
  split.
  { intros ->. discriminate R9. }
  unfold rule10, keywords_readable in *.
  destruct (d !! "keywords") as [v | ]; [right | left; reflexivity].
  destruct (length_of v) as [[len | ] | ] eqn:Hlen; try discriminate KR.
  - exists v, (Some len). split; [reflexivity | ]. split; [exact Hlen | ].
    simpl. rewrite Nat.ltb_antisym, R10. reflexivity.
  - exists v, None. split; [reflexivity | ]. split; [exact Hlen | reflexivity].
Qed.


(** X8: a call never touches the arrays; when it returns [undefined] the
    only change is one diagnostic on the console, and nothing is registered
    or installed; when it throws nothing has changed; when it returns a
    descriptor without a truthy [__experimentalCreatePrepareEditableTree]
    the pipeline is not called, and console and pipeline are as they
    were. *)
Theorem failed_call_only_logs (name : value) (settings : obj) (w : world S) :
  heap (snd (registerFormatType name settings w)) = heap w
  /\ (fst (registerFormatType name settings w) = Returned None ->
      exists msg, snd (registerFormatType name settings w) = logged msg w)
  /\ (forall e, fst (registerFormatType name settings w) = Threw e ->
        snd (registerFormatType name settings w) = w)
  /\ (forall d, fst (registerFormatType name settings w) = Returned (Some d) ->
        truthy (getp d "__experimentalCreatePrepareEditableTree") = false ->
        console (snd (registerFormatType name settings w)) = console w
        /\ filters (snd (registerFormatType name settings w)) = filters w).
Proof.
  rewrite registerFormatType_verdict.
  destruct (verdict_of _ _); simpl.
  - split; [reflexivity | ]. split; [eauto | ].
    split; [intros e E | intros d E]; discriminate E.
  - split; [reflexivity | ]. split; [discriminate | ].
    split; [reflexivity | intros d E; discriminate E].
  - split; [reflexivity | ]. split; [discriminate | ].
    split; [intros e E; discriminate E | ].
    intros d [= <-] Hhook. rewrite Hhook. split; reflexivity.
Qed.

(** X9: a successful call under settings without a [name] of their own, in
    a pipeline that has no wrapper under the name yet: the name is a string
    that matches the name pattern, one new, empty cache is created, and one
    wrapper is installed exactly when the descriptor has a truthy
    [__experimentalCreatePrepareEditableTree]: under the hook name
    [experimentalRichText], with the name as its namespace, closed over the
    descriptor and the new cache. *)
Theorem filter_installed_on_success (name : value) (settings d : obj)
    (w w' : world S) :
  registerFormatType name settings w = (Returned (Some d), w') ->
  settings !! "name" = None ->
  (forall flt, flt ∈ filters w -> namespace flt <> name) ->
  (exists n, name = VStr n /\ Regex.lang name_pattern n)
  /\ memos w' !! length (memos w) = Some []
  /\ filters w'
     = filters w
       ++ (if truthy (getp d "__experimentalCreatePrepareEditableTree")
           then [Filter "experimentalRichText" name d (length (memos w))]
           else []).
Proof.
  intros E Hplain _. apply register_success_inv in E as (_ & -> & V).
  destruct (accepted_plain_name name settings (registry w) Hplain V)
    as (n & -> & L & _).
  split; [eauto | ]. simpl.
  split; [apply list_lookup_middle; reflexivity | ].
  destruct (truthy _); [reflexivity | rewrite app_nil_r; reflexivity].
Qed.

Lemma getp_missing (d : obj) (k : string) :
  d !! k = None -> getp d k = VUndefined.
Proof. unfold getp. intros ->. reflexivity. Qed.

(** X10: a descriptor without a [tagName], without a [className] or without
    a [title] is rejected with the diagnostic of that field, once the rules
    before it have passed; an omitted [className] is not read as [null]. *)
Theorem missing_field_rejected (name : value) (settings : obj) (w : world S) :
  (passes_first 3 (registry w) (spread_name name settings) = true ->
   spread_name name settings !! "tagName" = None ->
   registerFormatType name settings w = (Returned None, logged msg_tag_name w))
  /\ (passes_first 4 (registry w) (spread_name name settings) = true ->
      spread_name name settings !! "className" = None ->
      registerFormatType name settings w
      = (Returned None, logged msg_class_type w))
  /\ (passes_first 8 (registry w) (spread_name name settings) = true ->
      spread_name name settings !! "title" = None ->
      registerFormatType name settings w
      = (Returned None,
         logged (msg_title (getp (spread_name name settings) "name")) w)).
Proof.
  rewrite registerFormatType_run. cbv zeta.
  set (d := spread_name name settings). set (st := registry w).
  unfold passes_first, rules. simpl.
  split; [ | split]; intros P Hmiss; split_all P.
  - rewrite R, R0, R1. simpl. unfold rule4.
    rewrite (getp_missing _ _ Hmiss). reflexivity.
  - rewrite R, R0, R1, R2. simpl. unfold rule5.
    rewrite (getp_missing _ _ Hmiss). reflexivity.
  - rewrite R, R0, R1, R2, R3, R4, R5, R6. simpl.
    rewrite register_checked_run. unfold rule9. rewrite Hmiss. reflexivity.
Qed.

End Outcomes.

(** ** The registry of the specification under registrations *)

Section RegistryInvariant.

Lemma class_name_found (st : gmap string obj) (cn : string) :
  is_Some (getFormatTypeForClassName st cn)
  <-> exists n old, st !! n = Some old /\ getp old "className" = VStr cn.
Proof.
  assert (Hclaims : forall d, claims_class_name cn d = true
                              <-> getp d "className" = VStr cn).
  { intros d. unfold claims_class_name, strict_eq_str.
    destruct (getp d "className"); try (split; discriminate).
    rewrite bool_decide_eq_true. split; [intros -> | intros [= ->]]; auto. }
  simpl. split.
  - intros [old Hfind]. apply find_some in Hfind as [Hin Hc].
    apply list_elem_of_In, list_elem_of_fmap in Hin as ([n old'] & -> & Hin).
    apply elem_of_map_to_list in Hin. apply Hclaims in Hc. eauto.
  - intros (n & old & Hlook & Hcls).
    destruct (List.find _ _) as [found | ] eqn:Hfind; [eauto | ].
    exfalso.
    assert (Hcl : claims_class_name cn old = false).
    { apply (find_none _ _ Hfind). apply list_elem_of_In, list_elem_of_fmap.
      exists (n, old). split; [reflexivity | ].
      apply elem_of_map_to_list. exact Hlook. }
    apply Hclaims in Hcls. congruence.
Qed.

(** X11: in the registry of the specification no operation removes or
    replaces a registered descriptor. *)
Theorem registration_is_permanent (o : op) (w : world (gmap string obj))
    (n : string) (d : obj) :
  registry w !! n = Some d -> registry (exec o w) !! n = Some d.
Proof.
  intros Hn. destruct o as [name settings | m p f]; simpl.
  - rewrite registerFormatType_verdict.
    destruct (verdict_of _ _) eqn:V; simpl; try exact Hn.
    apply verdict_accepted in V as [V _].
    apply first_failing_None in V as (R1 & _ & R3 & _).
    unfold rule1, rule3 in *.
    destruct (getp (spread_name name settings) "name")
      as [ | | b | n0 | nm | l | i ar src]; try discriminate R1.
    simpl in *. rewrite lookup_insert_ne; [exact Hn | ].
    intros <-. rewrite Hn in R3. discriminate R3.
  - destruct (build_cases m p f w)
      as [(_ & e & ->) | [(c & v & o & _ & _ & ->)
         | [(c & _ & _ & _ & e & ->) | (c & elems & _ & _ & _ & ->)]]];
      exact Hn.
Qed.

Lemma register_keeps_registry_ok (name : value) (settings : obj)
    (w : world (gmap string obj)) :
  registry_ok (registry w) ->
  registry_ok (registry (snd (registerFormatType name settings w))).
Proof.
  intros Hok. rewrite registerFormatType_verdict.
  destruct (verdict_of _ _) eqn:V; simpl; try exact Hok.
  set (d := spread_name name settings) in *.
  apply verdict_accepted in V as [V _].
  apply first_failing_None in V
    as (R1 & R2 & R3 & R4 & R5 & R6 & R7 & R8 & R9 & R10 & R11).
  assert (Hwf : well_formed_descriptor d) by (repeat split; assumption).
  destruct Hok as [Hdescr Huniq].
  unfold rule1 in R1. unfold rule3 in R3. unfold rule7 in R7. unfold rule8 in R8.
  unfold rule4 in R4. unfold rule5 in R5.
  destruct (getp d "name") as [ | | b | n0 | nm | l | i ar src] eqn:Hname;
    try discriminate R1.
  simpl in *.
  assert (Hfresh : registry w !! nm = None).
  { destruct (registry w !! nm); [discriminate R3 | reflexivity]. }
  assert (Hnew : forall n' d', registry w !! n' = Some d' ->
            getp d "className" = getp d' "className" ->
            (getp d "className" = VNull -> getp d "tagName" = getp d' "tagName") ->
            False).
  { intros n' d' Hlook Hcls Htag.
    destruct (getp d "tagName") as [ | | b | n0 | tag | l | i ar src] eqn:Ht;
      try discriminate R4.
    destruct (getp d "className") as [ | | b | n0 | cn | l | i ar src] eqn:Hc;
      try discriminate R5; simpl in *.
    - assert (Hs : is_Some (getFormatTypeForBareElement (registry w) tag)).
      { apply bare_element_found. exists n', d'.
        split; [exact Hlook | ]. split; [congruence | ].
        symmetry. apply Htag. reflexivity. }
      simpl in Hs. rewrite bool_decide_eq_true_2 in R7 by exact Hs.
      discriminate R7.
    - assert (Hs : is_Some (getFormatTypeForClassName (registry w) cn)).
      { apply class_name_found. exists n', d'. split; [exact Hlook | congruence]. }
      simpl in Hs. rewrite bool_decide_eq_true_2 in R8 by exact Hs.
      discriminate R8. }
  split.
  - intros n d' Hlook. apply lookup_insert_Some in Hlook as [[<- <-] | [_ Hlook]].
    + split; [exact Hname | exact Hwf].
    + apply (Hdescr n d' Hlook).
  - intros n1 n2 d1 d2 H1 H2 Hcls Htag.
    apply lookup_insert_Some in H1 as [[<- <-] | [Hn1 H1]];
      apply lookup_insert_Some in H2 as [[<- <-] | [Hn2 H2]].
    + reflexivity.
    + exfalso. apply (Hnew n2 d2 H2 Hcls Htag).
    + exfalso. apply (Hnew n1 d1 H1); [congruence | ].
      intros Hnull. symmetry. apply Htag. congruence.
    + apply (Huniq n1 n2 d1 d2 H1 H2 Hcls Htag).
Qed.

(** X12: in the registry of the specification, after any run from the empty
    registry, every descriptor is stored under its own name and passes the
    rules on its fields, no two descriptors handle the same bare tag and no
    two claim the same class name. *)
Theorem registry_stays_ok (ops : list op) :
  registry_ok (registry (run ops w0)).
Proof.
  induction ops as [ | o ops IH] using rev_ind.
  - split; [intros n d Hn | intros n1 n2 d1 d2 Hn];
      simpl in Hn; rewrite lookup_empty in Hn; discriminate Hn.
  - rewrite run_snoc. destruct o as [name settings | m p f].
    + apply register_keeps_registry_ok. exact IH.
    + simpl. destruct (build_cases m p f (run ops w0))
        as [(_ & e & ->) | [(c & v & o & _ & _ & ->)
           | [(c & _ & _ & _ & e & ->) | (c & elems & _ & _ & _ & ->)]]];
        exact IH.
Qed.

End RegistryInvariant.

(** ** Arrays and caches over a run *)

Section Stacks.
Context {S : Type} `{RichTextStore S}.

(** What a call of a memoized builder does to the world. *)
Lemma build_outcomes (m : nat) (p : option nat) (f : nat) (w : world S) :
  (forall e w', getFunctionStackMemoized m p f w = (Threw e, w') ->
     w' = w /\ (memos w !! m = None \/ stack_contents (heap w) p = None))
  /\ (forall r w', getFunctionStackMemoized m p f w = (Returned r, w') ->
        registry w' = registry w /\ console w' = console w
        /\ filters w' = filters w /\ length (memos w') = length (memos w)
        /\ ((cached w m (p, f) r /\ heap w' = heap w)
            \/ (~ (exists r0, cached w m (p, f) r0)
                /\ r = length (heap w)
                /\ exists elems, stack_contents (heap w) p = Some elems
                     /\ heap w' = heap w ++ [elems ++ [f]]))).
Proof.
  destruct (build_cases m p f w)
    as [(Hn & e & E) | [(c & v & o & Hm & Hl & E)
       | [(c & Hm & Hl & Hs & e & E) | (c & elems & Hm & Hl & Hs & E)]]];
    rewrite E; split; try (intros ? ? E'; discriminate E').
  - intros e' w' [= <- <-]. auto.
  - intros r w' [= <- <-]. simpl. rewrite length_insert.
    repeat (split; [reflexivity | ]). left. split; [ | reflexivity].
    exists c. split; [exact Hm | ]. apply memo_lookup_Some in Hl.
    rewrite Hl. apply elem_of_cons. auto.
  - intros e' w' [= <- <-]. auto.
  - intros r w' [= <- <-]. simpl. rewrite length_insert.
    repeat (split; [reflexivity | ]). right. split; [ | split; [reflexivity | eauto]].
    intros (r0 & c0 & Hm0 & Hin). rewrite Hm in Hm0. injection Hm0 as <-.
    apply memo_lookup_None in Hl. apply Hl.
    apply list_elem_of_fmap. exists (p, f, r0). auto.
Qed.



(** The shared empty array over a run. *)
Lemma empty_array_invariant (ops : list op) (st : S) :
  heap (run ops (init_world st)) !! EMPTY_ARRAY = Some []
  /\ forall m p f r w',
       getFunctionStackMemoized m p f (run ops (init_world st))
         = (Returned r, w') ->
       r <> EMPTY_ARRAY
       /\ exists elems, heap w' !! r = Some (elems ++ [f]).
Proof.
  assert (He : heap (run ops (init_world st)) !! EMPTY_ARRAY = Some [])
    by (apply run_heap_mono; reflexivity).
  split; [exact He | ].
  intros m p f r w' E. destruct (run_invariant ops st) as [Hwf _].
  set (w := run ops (init_world st)) in *.
  assert (Hr : exists elems, heap w' !! r = Some (elems ++ [f])).
  { destruct (build_cases m p f w)
      as [(_ & e & E') | [(c & v & o & Hm & Hl & E')
         | [(c & _ & _ & _ & e & E') | (c & elems & Hm & Hl & Hs & E')]]];
      rewrite E' in E; try discriminate E; injection E as <- <-; simpl.
    - apply memo_lookup_Some in Hl.
      destruct (Hwf m c Hm) as (_ & _ & Hcont).
      destruct (Hcont p f v) as (elems & _ & Hv);
        [rewrite Hl; apply elem_of_cons; auto | eauto].
    - exists elems. apply list_lookup_middle. reflexivity. }
  split; [ | exact Hr]. intros ->. destruct Hr as [elems Hr].
  assert (He' : heap w' !! EMPTY_ARRAY = Some []).
  { change w' with (snd (Returned EMPTY_ARRAY, w')). rewrite <- E.
    apply (heap_lookup_preserved (Build m p f) w). exact He. }
  rewrite He' in Hr. injection Hr as Hr. destruct elems; discriminate Hr.
Qed.

Lemma cached_persists (m : nat) (p : option nat) (f : nat) (w : world S)
    (m' : nat) (k' : memo_key) (r' : nat) :
  cached w m' k' r' ->
  cached (snd (getFunctionStackMemoized m p f w)) m' k' r'.
Proof.
  intros (c & Hc & Hin).
  destruct (exec_memo_mono (Build m p f) w m' c Hc) as (c' & Hc' & Hsub).
  exists c'. split; [exact Hc' | apply Hsub; exact Hin].
Qed.

Lemma build_step (m : nat) (p : option nat) (f : nat) (elems : list nat)
    (w : world S) :
  memo_wf w -> m < length (memos w) ->
  stack_contents (heap w) p = Some elems ->
  exists r w',
    getFunctionStackMemoized m p f w = (Returned r, w')
    /\ memo_wf w' /\ length (memos w') = length (memos w)
    /\ heap w' !! r = Some (elems ++ [f])
    /\ cached w' m (p, f) r
    /\ (forall m' k' r', cached w m' k' r' -> cached w' m' k' r').
Proof.
  intros Hwf Hm Hs.
  destruct (build_returns m p f elems w Hwf Hm Hs) as (r & others & h' & E & Hr).
  pose proof (build_preserves_wf m p f w Hwf) as Hwf'.
  pose proof (cached_persists m p f w) as Hpers.
  rewrite E in Hwf', Hpers. simpl in Hwf', Hpers.
  eexists r, _. split; [exact E | ]. split; [exact Hwf' | ].
  split; [simpl; apply length_insert | ]. split; [exact Hr | ].
  split; [ | exact Hpers].
  eexists. split; [simpl; apply list_lookup_insert_eq; exact Hm | ].
  apply elem_of_cons. auto.
Qed.

Lemma build_hit (m : nat) (p : option nat) (f r : nat) (w : world S) :
  memo_wf w -> cached w m (p, f) r ->
  exists w',
    getFunctionStackMemoized m p f w = (Returned r, w')
    /\ heap w' = heap w /\ memo_wf w'
    /\ (forall m' k' r', cached w m' k' r' -> cached w' m' k' r').
Proof.
  intros Hwf (c & Hc & Hin).
  pose proof (build_preserves_wf m p f w Hwf) as Hwf'.
  pose proof (cached_persists m p f w) as Hpers.
  destruct (build_cases m p f w)
    as [(Hn & _) | [(c0 & v & o & Hm & Hl & E)
       | [(c0 & Hm & Hl & _) | (c0 & elems & Hm & Hl & _)]]];
    try congruence.
  - rewrite Hc in Hm. injection Hm as <-.
    pose proof (memo_lookup_Some _ _ _ _ Hl) as Hperm.
    destruct (Hwf m c Hc) as (Hkeys & _).
    assert (v = r).
    { rewrite Hperm in Hkeys, Hin. simpl in Hkeys.
      apply NoDup_cons in Hkeys as [Hnotin _].
      apply elem_of_cons in Hin as [[= ->] | Hin]; [reflexivity | ].
      exfalso. apply Hnotin. apply list_elem_of_fmap.
      exists (p, f, r). auto. }
    subst v. rewrite E in Hwf', Hpers. simpl in Hwf', Hpers.
    eexists. split; [exact E | ]. split; [reflexivity | auto].
  - rewrite Hc in Hm. injection Hm as <-.
    apply memo_lookup_None in Hl. exfalso. apply Hl.
    apply list_elem_of_fmap. exists (p, f, r). auto.
  - rewrite Hc in Hm. injection Hm as <-.
    apply memo_lookup_None in Hl. exfalso. apply Hl.
    apply list_elem_of_fmap. exists (p, f, r). auto.
Qed.

Lemma chain_cached_mono (w w' : world S) (steps : list (nat * nat)) :
  (forall m' k' r', cached w m' k' r' -> cached w' m' k' r') ->
  forall stack final,
    chain_cached w steps stack final -> chain_cached w' steps stack final.
Proof.
  intros Hpers. induction steps as [ | [m f] rest IH]; intros stack final; simpl.
  - auto.
  - intros (r & Hc & Hrest). exists r. split; [apply Hpers; exact Hc | auto].
Qed.

Lemma build_chain_first (steps : list (nat * nat)) :
  forall (stack : option nat) (w : world S) (elems : list nat),
    memo_wf w ->
    (forall m f, (m, f) ∈ steps -> m < length (memos w)) ->
    stack_contents (heap w) stack = Some elems ->
    exists final w1,
      build_chain steps stack w = (Returned final, w1)
      /\ stack_contents (heap w1) final = Some (elems ++ steps.*2)
      /\ memo_wf w1
      /\ chain_cached w1 steps stack final
      /\ (forall m' k' r', cached w m' k' r' -> cached w1 m' k' r').
Proof.
  induction steps as [ | [m f] rest IH]; intros stack w elems Hwf Hvalid Hs.
  - exists stack, w. simpl. rewrite app_nil_r. auto.
  - destruct (build_step m stack f elems w Hwf) as
      (r & w' & E & Hwf' & Hlen & Hr & Hc & Hpers); [ | exact Hs | ].
    { apply (Hvalid m f). apply elem_of_cons. auto. }
    destruct (IH (Some r) w' (elems ++ [f]) Hwf') as
      (final & w1 & E1 & Hfinal & Hwf1 & Hchain & Hpers1); [ | exact Hr | ].
    { intros m' f' Hin. rewrite Hlen. apply (Hvalid m' f').
      apply elem_of_cons. auto. }
    exists final, w1. split.
    { simpl. unfold mbind, M_bind. rewrite E. exact E1. }
    split; [rewrite Hfinal, <- app_assoc; reflexivity | ].
    split; [exact Hwf1 | ]. split; [ | auto].
    exists r. split; [apply Hpers1; exact Hc | exact Hchain].
Qed.

Lemma build_chain_again (steps : list (nat * nat)) :
  forall (stack final : option nat) (w : world S),
    memo_wf w -> chain_cached w steps stack final ->
    exists w2, build_chain steps stack w = (Returned final, w2)
               /\ heap w2 = heap w.
Proof.
  induction steps as [ | [m f] rest IH]; intros stack final w Hwf; simpl.
  - intros ->. exists w. auto.
  - intros (r & Hc & Hchain).
    destruct (build_hit m stack f r w Hwf Hc) as (w' & E & Hheap & Hwf' & Hpers).
    destruct (IH (Some r) final w' Hwf') as (w2 & E2 & Hheap2).
    { apply (chain_cached_mono w w' rest Hpers). exact Hchain. }
    exists w2. split; [ | congruence].
    unfold mbind, M_bind. rewrite E. exact E2.
Qed.

(** X16: on every world the program reaches, passing the stack through the
    builders of several wrappers, starting from [undefined], ends in an array
    that holds the functions of the wrappers in order; passing it through
    again ends in the same array and allocates nothing. *)
Theorem build_chain_composes (ops : list op) (st : S)
    (steps : list (nat * nat)) :
  (forall m f, (m, f) ∈ steps ->
     m < length (memos (run ops (init_world st)))) ->
  exists final w1,
    build_chain steps None (run ops (init_world st)) = (Returned final, w1)
    /\ stack_contents (heap w1) final = Some steps.*2
    /\ exists w2, build_chain steps None w1 = (Returned final, w2)
                  /\ heap w2 = heap w1.
Proof.
  intros Hvalid. destruct (run_invariant ops st) as [Hwf _].
  destruct (empty_array_invariant ops st) as [He _].
  destruct (build_chain_first steps None _ [] Hwf Hvalid He)
    as (final & w1 & E & Hfinal & Hwf1 & Hchain & _).
  exists final, w1. split; [exact E | ]. split; [exact Hfinal | ].
  apply (build_chain_again steps None final w1 Hwf1 Hchain).
Qed.

(** X17: a cache never holds more entries than its builder was called
    times. *)
Theorem cache_size_bounded (ops : list op) (st : S) (m : nat)
    (c : memo_cache) :
  memos (run ops (init_world st)) !! m = Some c ->
  length c <= length (List.filter (calls_builder m) ops).
Proof.
  intros Hc. destruct (run_invariant ops st) as [Hwf Hseen].
  destruct (Hwf m c Hc) as (Hkeys & _).
  set (g := fun k : memo_key => Build m k.1 k.2).
  assert (Hinj : Inj (=) (=) g).
  { intros [p1 f1] [p2 f2] E. unfold g in E. simpl in E. congruence. }
  rewrite <- (length_fmap fst c), <- (length_fmap g (c.*1)).
  apply submseteq_length. apply NoDup_submseteq.
  - apply (NoDup_fmap_2 g). exact Hkeys.
  - intros o Hin. apply list_elem_of_fmap in Hin as (k & -> & Hk).
    apply list_elem_of_In, filter_In. split.
    + apply list_elem_of_In. apply (Hseen m c k Hc Hk).
    + simpl. apply bool_decide_eq_true. reflexivity.
Qed.

Lemma run_keeps_cached (more : list op) (w : world S) (m : nat)
    (k : memo_key) (r : nat) :
  memo_wf w -> cached w m k r ->
  memo_wf (run more w) /\ cached (run more w) m k r.
Proof.
  intros Hwf Hc. induction more as [ | o more [IHwf IHc]] using rev_ind.
  - split; assumption.
  - rewrite run_snoc. split; [apply exec_preserves_wf; exact IHwf | ].
    destruct IHc as (c & Hm & Hin).
    destruct (exec_memo_mono o (run more w) m c Hm) as (c' & Hm' & Hsub).
    exists c'. split; [exact Hm' | apply Hsub; exact Hin].
Qed.

(** X13: what a memoized builder has once returned for a previous stack and
    a new function it returns for them ever after: after any further
    registrations and builder calls, of this and of other builders, the same
    call returns the same array and allocates nothing. *)
Theorem memoized_result_is_stable (ops more : list op) (st : S) (m : nat)
    (previousStack : option nat) (newFunction r : nat) (w1 : world S) :
  getFunctionStackMemoized m previousStack newFunction
    (run ops (init_world st)) = (Returned r, w1) ->
  fst (getFunctionStackMemoized m previousStack newFunction (run more w1))
  = Returned r
  /\ heap (snd (getFunctionStackMemoized m previousStack newFunction
                  (run more w1)))
     = heap (run more w1).
Proof.
  intros E. destruct (run_invariant ops st) as [Hwf _].
  pose proof (build_preserves_wf m previousStack newFunction _ Hwf) as Hwf1.
  rewrite E in Hwf1. simpl in Hwf1.
  assert (Hc : cached w1 m (previousStack, newFunction) r).
  { destruct (build_outcomes m previousStack newFunction
                (run ops (init_world st))) as [_ Hret].
    destruct (Hret r w1 E) as (_ & _ & _ & _ & [[Hc Hheap] | (Hnc & -> & _)]).
    - apply (cached_persists m previousStack newFunction) in Hc.
      rewrite E in Hc. exact Hc.
    - destruct (build_cases m previousStack newFunction
                  (run ops (init_world st)))
        as [(_ & e & E') | [(c & v & o & Hm & Hl & E')
           | [(c & _ & _ & _ & e & E') | (c & elems & Hm & Hl & Hs & E')]]];
        rewrite E' in E; try discriminate E.
      + exfalso. apply Hnc. exists v, c. split; [exact Hm | ].
        apply memo_lookup_Some in Hl. rewrite Hl. apply elem_of_cons. auto.
      + injection E as <-. eexists. split.
        * simpl. apply list_lookup_insert_eq. eapply lookup_lt_Some; eauto.
        * apply elem_of_cons. auto. }
  destruct (run_keeps_cached more w1 m _ r Hwf1 Hc) as [Hwf2 Hc2].
  destruct (build_hit m previousStack newFunction r _ Hwf2 Hc2)
    as (w' & E2 & Hheap & _).
  rewrite E2. auto.
Qed.

(** X14: no registration and no builder call changes an array that exists:
    the stacks handed out earlier keep their contents. *)
Theorem arrays_never_change (o : op) (w : world S) (i : nat) (x : list nat) :
  heap w !! i = Some x -> heap (exec o w) !! i = Some x.
Proof. apply heap_lookup_preserved. Qed.

(** X15: over every run the shared [EMPTY_ARRAY] stays empty, and a builder
    never returns it: what a builder returns is another array, which ends
    with the new function. *)
Theorem empty_array_stays_empty (ops : list op) (st : S) :
  heap (run ops (init_world st)) !! EMPTY_ARRAY = Some []
  /\ forall m p f r w',
       getFunctionStackMemoized m p f (run ops (init_world st))
         = (Returned r, w') ->
       r <> EMPTY_ARRAY
       /\ exists elems, heap w' !! r = Some (elems ++ [f]).
Proof. apply empty_array_invariant. Qed.

End Stacks.

(** ** The component wrapper over a run *)

Section WrapperFacts.
Context {S : Type} `{RichTextStore S}.

Lemma select_not_dispatch (a b : value) (key : string) :
  startsWith key (selectPrefix a) = true ->
  startsWith key (dispatchPrefix b) = false.
Proof.
  intros E. apply startsWith_spec in E as [r ->].
  unfold selectPrefix, dispatchPrefix. rewrite !append_assoc. reflexivity.
Qed.

(** X5: when the props hold [selected] under the select prefix of a name
    and [dispatched] under its dispatch prefix, as the two [mapKeys] of lines
    193 to 211 write them, next to props with neither prefix, the
    tree-preparation hook receives [selected] and the change hook receives
    [dispatched] written over [selected]. *)
Theorem hooks_receive_injected_props (name : value) (selected dispatched rest : obj) :
  selected !! "__proto__" = None -> dispatched !! "__proto__" = None ->
  (forall key, is_Some (rest !! key) ->
     startsWith key (selectPrefix name) = false
     /\ startsWith key (dispatchPrefix name) = false) ->
  prepare_props name
    (mapKeys_prefix (selectPrefix name) selected
     ∪ mapKeys_prefix (dispatchPrefix name) dispatched ∪ rest)
  = Some selected
  /\ change_props name
       (mapKeys_prefix (selectPrefix name) selected
        ∪ mapKeys_prefix (dispatchPrefix name) dispatched ∪ rest)
     = Some (dispatched ∪ selected).
Proof.
  intros Hs Hd Hrest.
  set (sel := mapKeys_prefix (selectPrefix name) selected).
  set (dis := mapKeys_prefix (dispatchPrefix name) dispatched).
  assert (Hsel : getPropsByPrefix (sel ∪ dis ∪ rest) (selectPrefix name)
                 = Some selected).
  { rewrite <- (assoc_L (∪)). apply props_by_prefix_mapKeys; [exact Hs | ].
    intros key Hkey. apply lookup_union_is_Some in Hkey as [Hkey | Hkey].
    - apply mapKeys_prefix_is_Some in Hkey.
      destruct (startsWith key (selectPrefix name)) eqn:E; [ | reflexivity].
      rewrite (select_not_dispatch name name key E) in Hkey. discriminate Hkey.
    - apply (Hrest key Hkey). }
  assert (Hdis : getPropsByPrefix (sel ∪ dis ∪ rest) (dispatchPrefix name)
                 = Some dispatched).
  { assert (Hdisj : sel ##ₘ dis).
    { apply map_disjoint_spec. intros key x y Hx Hy.
      assert (Hk1 : startsWith key (selectPrefix name) = true)
        by (apply (mapKeys_prefix_is_Some _ selected); eauto).
      assert (Hk2 : startsWith key (dispatchPrefix name) = true)
        by (apply (mapKeys_prefix_is_Some _ dispatched); eauto).
      rewrite (select_not_dispatch name name key Hk1) in Hk2. discriminate. }
    rewrite (map_union_comm sel dis Hdisj), <- (assoc_L (∪)).
    apply props_by_prefix_mapKeys; [exact Hd | ].
    intros key Hkey. apply lookup_union_is_Some in Hkey as [Hkey | Hkey].
    - apply mapKeys_prefix_is_Some in Hkey.
      apply (select_not_dispatch name name key Hkey).
    - apply (Hrest key Hkey). }
  unfold prepare_props, change_props. rewrite Hsel, Hdis. auto.
Qed.

Lemma register_filters (name : value) (settings : obj) (w : world S) :
  (filters (snd (registerFormatType name settings w)) = filters w
   /\ (memos (snd (registerFormatType name settings w)) = memos w
       \/ memos (snd (registerFormatType name settings w)) = memos w ++ [[]]))
  \/ (exists d,
        truthy (getp d "__experimentalCreatePrepareEditableTree") = true
        /\ filters (snd (registerFormatType name settings w))
           = filters w ++ [Filter "experimentalRichText" name d (length (memos w))]
        /\ memos (snd (registerFormatType name settings w)) = memos w ++ [[]]).
Proof.
  rewrite registerFormatType_verdict.
  destruct (verdict_of _ _); simpl; auto.
  destruct (truthy (getp (spread_name name settings)
                      "__experimentalCreatePrepareEditableTree")) eqn:Ht; [ | auto].
  right. exists (spread_name name settings). auto.
Qed.

Lemma exec_keeps_filters_ok (o : op) (w : world S) :
  filters_ok w -> filters_ok (exec o w).
Proof.
  intros [Hflt Hnd]. unfold filters_ok.
  destruct o as [name settings | m p f]; simpl.
  - destruct (register_filters name settings w)
      as [[-> Hm] | (d & Ht & -> & ->)].
    + split; [ | exact Hnd]. intros flt Hin.
      destruct (Hflt flt Hin) as (Hh & Hhook & Hlt).
      split; [exact Hh | split; [exact Hhook | ]].
      destruct Hm as [-> | ->]; [exact Hlt | rewrite length_app; lia].
    + split.
      * intros flt Hin. apply elem_of_app in Hin as [Hin | Hin].
        -- destruct (Hflt flt Hin) as (Hh & Hhook & Hlt).
           split; [exact Hh | split; [exact Hhook | ]].
           rewrite length_app. lia.
        -- apply list_elem_of_singleton in Hin as ->. simpl.
           split; [reflexivity | split; [exact Ht | ]].
           rewrite length_app. simpl. lia.
      * rewrite fmap_app. simpl. apply NoDup_app. split; [exact Hnd | ].
        split; [ | apply NoDup_singleton].
        intros x Hx Hx'. apply list_elem_of_singleton in Hx' as ->.
        apply list_elem_of_fmap in Hx as (flt & Heq & Hin).
        destruct (Hflt flt Hin) as (_ & _ & Hlt). lia.
  - destruct (build_outcomes m p f w) as [Hthrow Hret].
    destruct (getFunctionStackMemoized m p f w) as [[r | e] w'] eqn:E; simpl.
    + destruct (Hret r w' eq_refl) as (_ & _ & -> & -> & _).
      split; assumption.
    + destruct (Hthrow e w' eq_refl) as [-> _]. split; assumption.
Qed.

(** The installed wrappers over a run. *)
Lemma filters_invariant (ops : list op) (st : S) :
  filters_ok (run ops (init_world st)).
Proof.
  induction ops as [ | o ops IH] using rev_ind.
  - split; [ | constructor]. intros flt Hin.
    apply elem_of_nil in Hin. contradiction.
  - rewrite run_snoc. apply exec_keeps_filters_ok. exact IH.
Qed.


(** X18: over every run, each installed wrapper is under the hook name
    [experimentalRichText], belongs to a descriptor with a truthy
    tree-preparation hook and owns a cache that exists, and no two wrappers
    share a cache. *)
Theorem wrappers_own_their_caches (ops : list op) (st : S) :
  filters_ok (run ops (init_world st)).
Proof. apply filters_invariant. Qed.

End WrapperFacts.

(** ** The prefixes of the installed wrappers *)

Section WrapperNames.

Lemma register_keeps_wrapper_names (name : value) (settings : obj)
    (w : world (gmap string obj)) :
  settings !! "name" = None ->
  wrapper_names_ok w ->
  wrapper_names_ok (snd (registerFormatType name settings w)).
Proof.
  intros Hplain [Hnames Hnd]. rewrite registerFormatType_verdict.
  destruct (verdict_of _ _) eqn:V; simpl; try (split; assumption).
  apply verdict_accepted in V as [V _].
  destruct (accepted_plain_name name settings (registry w) Hplain V)
    as (n & -> & L & Hfresh).
  simpl in Hfresh.
  rewrite (spread_name_fresh _ _ Hplain) in *.
  set (d := <["name" := VStr n]> settings) in *.
  assert (Hname : getp d "name" = VStr n)
    by (apply getp_lookup, lookup_insert_eq).
  unfold wrapper_names_ok, committed. simpl. rewrite Hname. simpl.
  assert (Hold : forall flt, flt ∈ filters w ->
            exists n', namespace flt = VStr n' /\ Regex.lang name_pattern n'
                       /\ is_Some (<[n := d]> (registry w) !! n')).
  { intros flt Hin. destruct (Hnames flt Hin) as (n' & Hns & Hpat & Hreg).
    exists n'. split; [exact Hns | split; [exact Hpat | ]].
    rewrite lookup_insert_is_Some. destruct (decide (n = n')); auto. }
  destruct (truthy (getp d "__experimentalCreatePrepareEditableTree")).
  - split.
    + intros flt Hin. apply elem_of_app in Hin as [Hin | Hin]; [auto | ].
      apply list_elem_of_singleton in Hin as ->. simpl.
      exists n. split; [reflexivity | split; [exact L | ]].
      rewrite lookup_insert_eq. eauto.
    + rewrite fmap_app. simpl. apply NoDup_app. split; [exact Hnd | ].
      split; [ | apply NoDup_singleton].
      intros x Hx Hx'. apply list_elem_of_singleton in Hx' as ->.
      apply list_elem_of_fmap in Hx as (flt & Heq & Hin).
      destruct (Hnames flt Hin) as (n' & Hns & _ & Hreg).
      rewrite Hns in Heq. injection Heq as ->.
      rewrite Hfresh in Hreg. destruct Hreg as [? Hreg]. discriminate Hreg.
  - split; [exact Hold | exact Hnd].
Qed.

Lemma run_wrapper_names (ops : list op) (st : gmap string obj) :
  plain_registrations ops -> wrapper_names_ok (run ops (init_world st)).
Proof.
  induction ops as [ | o ops IH] using rev_ind; intros Hplain.
  - split; [ | constructor]. intros flt Hin.
    apply elem_of_nil in Hin. contradiction.
  - rewrite run_snoc.
    assert (IH' : wrapper_names_ok (run ops (init_world st))).
    { apply IH. intros name settings Hin. apply (Hplain name settings).
      apply elem_of_app. auto. }
    destruct o as [name settings | m p f]; simpl.
    + apply register_keeps_wrapper_names; [ | exact IH'].
      apply (Hplain name settings). apply elem_of_app. right.
      apply list_elem_of_singleton. reflexivity.
    + destruct (build_outcomes m p f (run ops (init_world st)))
        as [Hthrow Hret].
      destruct (getFunctionStackMemoized m p f (run ops (init_world st)))
        as [[r | e] w'] eqn:E; simpl.
      * destruct (Hret r w' eq_refl) as (Hreg & _ & Hflt & _).
        unfold wrapper_names_ok. rewrite Hreg, Hflt. exact IH'.
      * destruct (Hthrow e w' eq_refl) as [-> _]. exact IH'.
Qed.

Lemma distinct_wrappers_keys (n1 n2 key : string) :
  Regex.lang name_pattern n1 -> Regex.lang name_pattern n2 -> n1 <> n2 ->
  startsWith key (selectPrefix (VStr n1)) = true
  \/ startsWith key (dispatchPrefix (VStr n1)) = true ->
  startsWith key (selectPrefix (VStr n2)) = false
  /\ startsWith key (dispatchPrefix (VStr n2)) = false.
Proof.
  intros L1 L2 Hne Hkey.
  destruct (prefix_decides_name n1 n2 key L1 L2) as (Hsel & Hdis & Hcross).
  destruct (prefix_decides_name n2 n1 key L2 L1) as (_ & _ & Hcross').
  destruct Hkey as [Hkey | Hkey].
  - split; [ | exact (Hcross Hkey)].
    apply not_true_is_false. intros E. apply Hne. exact (Hsel Hkey E).
  - split.
    + apply not_true_is_false. intros E.
      rewrite (Hcross' E) in Hkey. discriminate Hkey.
    + apply not_true_is_false. intros E. apply Hne. exact (Hdis Hkey E).
Qed.

(** Props whose keys start with no prefix of a name make no difference to
    what the hooks under that name receive. *)
Lemma foreign_props_ignored (name : value) (injected props : obj) :
  (forall key, is_Some (injected !! key) ->
     startsWith key (selectPrefix name) = false
     /\ startsWith key (dispatchPrefix name) = false) ->
  prepare_props name (injected ∪ props) = prepare_props name props
  /\ change_props name (injected ∪ props) = change_props name props.
Proof.
  intros Hforeign.
  assert (Hsel : getPropsByPrefix (injected ∪ props) (selectPrefix name)
                 = getPropsByPrefix props (selectPrefix name)).
  { apply getPropsByPrefix_agree. intros k. apply lookup_union_r.
    apply eq_None_not_Some. intros Hin.
    destruct (Hforeign _ Hin) as [Hs _].
    rewrite startsWith_append in Hs. discriminate Hs. }
  assert (Hdis : getPropsByPrefix (injected ∪ props) (dispatchPrefix name)
                 = getPropsByPrefix props (dispatchPrefix name)).
  { apply getPropsByPrefix_agree. intros k. apply lookup_union_r.
    apply eq_None_not_Some. intros Hin.
    destruct (Hforeign _ Hin) as [_ Hd].
    rewrite startsWith_append in Hd. discriminate Hd. }
  unfold prepare_props, change_props. rewrite Hsel, Hdis. auto.
Qed.

(** X3: over a run whose registrations pass settings without a [name] of
    their own, two different installed wrappers have prefixes that do not
    overlap: a prop key that starts with the select or the dispatch prefix of
    one starts with neither prefix of the other, so the props injected for
    one format make no difference to what the hooks of the other receive. *)
Theorem wrappers_have_disjoint_prefixes (ops : list op)
    (st : gmap string obj) (i j : nat) (flt1 flt2 : filter) :
  plain_registrations ops ->
  filters (run ops (init_world st)) !! i = Some flt1 ->
  filters (run ops (init_world st)) !! j = Some flt2 ->
  i <> j ->
  (forall key,
     startsWith key (selectPrefix (namespace flt1)) = true
     \/ startsWith key (dispatchPrefix (namespace flt1)) = true ->
     startsWith key (selectPrefix (namespace flt2)) = false
     /\ startsWith key (dispatchPrefix (namespace flt2)) = false)
  /\ (forall injected props : obj,
        (forall key, is_Some (injected !! key) ->
           startsWith key (selectPrefix (namespace flt1)) = true
           \/ startsWith key (dispatchPrefix (namespace flt1)) = true) ->
        prepare_props (namespace flt2) (injected ∪ props)
        = prepare_props (namespace flt2) props
        /\ change_props (namespace flt2) (injected ∪ props)
           = change_props (namespace flt2) props).
Proof.
  intros Hplain H1 H2 Hij.
  destruct (run_wrapper_names ops st Hplain) as [Hnames Hnd].
  destruct (Hnames flt1) as (n1 & Hn1 & L1 & _);
    [apply list_elem_of_lookup; eauto | ].
  destruct (Hnames flt2) as (n2 & Hn2 & L2 & _);
    [apply list_elem_of_lookup; eauto | ].
  assert (Hne : n1 <> n2).
  { intros <-. apply Hij.
    apply (NoDup_lookup _ i j (VStr n1) Hnd);
      rewrite list_lookup_fmap; [rewrite H1 | rewrite H2]; simpl; congruence. }
  rewrite Hn1, Hn2.
  assert (Hkeys := fun key => distinct_wrappers_keys n1 n2 key L1 L2 Hne).
  split; [exact Hkeys | ].
  intros injected props Hinj. apply foreign_props_ignored.
  intros key Hin. apply Hkeys, Hinj, Hin.
Qed.

End WrapperNames.

(** ** The further properties at concrete inputs *)

Lemma getPropsByPrefix_own_properties_witness :
  is_object_or_null
    (getp bold_props ("format_value_(core/bold)_" +:+ "__proto__")) = false
  /\ forall k, ({[ "color" := VStr "red" ]} : obj) !! k
               = if decide (k = "__proto__") then None
                 else bold_props !! ("format_value_(core/bold)_" +:+ k).
Proof.
  apply (getPropsByPrefix_own_properties bold_props {[ "color" := VStr "red" ]}
           "format_value_(core/bold)_").
  vm_compute. reflexivity.
Defined.

Lemma getPropsByPrefix_recovers_mapKeys_witness :
  getPropsByPrefix
    (mapKeys_prefix "format_value_(core/bold)_" {[ "color" := VStr "red" ]}
     ∪ {[ "identifier" := VStr "content" ]})
    "format_value_(core/bold)_"
  = Some {[ "color" := VStr "red" ]}.
Proof.
  apply (getPropsByPrefix_recovers_mapKeys "format_value_(core/bold)_"
           {[ "color" := VStr "red" ]} {[ "identifier" := VStr "content" ]}).
  - vm_compute. reflexivity.
  - intros key Hkey. apply lookup_singleton_is_Some in Hkey as <-.
    vm_compute. reflexivity.
Defined.

Lemma wrappers_have_disjoint_prefixes_witness :
  (forall key,
     startsWith key (selectPrefix (namespace bold_wrapper)) = true
     \/ startsWith key (dispatchPrefix (namespace bold_wrapper)) = true ->
     startsWith key (selectPrefix (namespace italic_wrapper)) = false
     /\ startsWith key (dispatchPrefix (namespace italic_wrapper)) = false)
  /\ (forall injected props : obj,
        (forall key, is_Some (injected !! key) ->
           startsWith key (selectPrefix (namespace bold_wrapper)) = true
           \/ startsWith key (dispatchPrefix (namespace bold_wrapper)) = true) ->
        prepare_props (namespace italic_wrapper) (injected ∪ props)
        = prepare_props (namespace italic_wrapper) props
        /\ change_props (namespace italic_wrapper) (injected ∪ props)
           = change_props (namespace italic_wrapper) props).
Proof.
  apply (wrappers_have_disjoint_prefixes bold_then_italic ∅ 0 1
           bold_wrapper italic_wrapper).
  - intros name settings Hin.
    apply elem_of_cons in Hin as [[= -> ->] | Hin]; [vm_compute; reflexivity | ].
    apply elem_of_cons in Hin as [[= -> ->] | Hin]; [vm_compute; reflexivity | ].
    apply elem_of_nil in Hin. contradiction.
  - vm_compute. reflexivity.
  - vm_compute. reflexivity.
  - lia.
Defined.

Lemma unreadable_keywords_throw_witness :
  registerFormatType (VStr "my-plugin/bold") numbered w0 = (Threw no_length, w0).
Proof.
  apply (unreadable_keywords_throw (VStr "my-plugin/bold") numbered w0).
  - vm_compute. reflexivity.
  - right. vm_compute. reflexivity.
Defined.

Lemma memoized_result_is_stable_witness :
  fst (getFunctionStackMemoized 0 None 7
         (run [Register (VStr "core/italic") italic; Build 0 (Some 1) 8;
               Build 1 None 7]
            (snd (getFunctionStackMemoized 0 None 7
                    (run [Register (VStr "core/bold") bold] w0)))))
  = Returned 1
  /\ heap (snd (getFunctionStackMemoized 0 None 7
                  (run [Register (VStr "core/italic") italic; Build 0 (Some 1) 8;
                        Build 1 None 7]
                     (snd (getFunctionStackMemoized 0 None 7
                             (run [Register (VStr "core/bold") bold] w0))))))
     = heap (run [Register (VStr "core/italic") italic; Build 0 (Some 1) 8;
                  Build 1 None 7]
               (snd (getFunctionStackMemoized 0 None 7
                       (run [Register (VStr "core/bold") bold] w0)))).
Proof.
  apply (memoized_result_is_stable [Register (VStr "core/bold") bold]
           [Register (VStr "core/italic") italic; Build 0 (Some 1) 8;
            Build 1 None 7]
           (∅ : gmap string obj) 0 None 7 1
           (snd (getFunctionStackMemoized 0 None 7
                   (run [Register (VStr "core/bold") bold] w0)))).
  vm_compute. reflexivity.
Defined.

Lemma change_props_lookup_witness :
  ({[ "color" := VStr "blue" ]} : obj) !! "color"
  = if decide ("color" = "__proto__") then None
    else match bold_props !! (dispatchPrefix (VStr "core/bold") +:+ "color") with
         | Some v => Some v
         | None => bold_props !! (selectPrefix (VStr "core/bold") +:+ "color")
         end.
Proof.
  apply (change_props_lookup (VStr "core/bold") bold_props
           {[ "color" := VStr "blue" ]} "color").
  vm_compute. reflexivity.
Defined.

Lemma hooks_receive_injected_props_witness :
  prepare_props (VStr "core/bold")
    (mapKeys_prefix (selectPrefix (VStr "core/bold")) {[ "color" := VStr "red" ]}
     ∪ mapKeys_prefix (dispatchPrefix (VStr "core/bold"))
         {[ "color" := VStr "blue" ]}
     ∪ {[ "identifier" := VStr "content" ]})
  = Some {[ "color" := VStr "red" ]}
  /\ change_props (VStr "core/bold")
       (mapKeys_prefix (selectPrefix (VStr "core/bold")) {[ "color" := VStr "red" ]}
        ∪ mapKeys_prefix (dispatchPrefix (VStr "core/bold"))
            {[ "color" := VStr "blue" ]}
        ∪ {[ "identifier" := VStr "content" ]})
     = Some ({[ "color" := VStr "blue" ]} ∪ {[ "color" := VStr "red" ]}).
Proof.
  apply (hooks_receive_injected_props (VStr "core/bold")
           {[ "color" := VStr "red" ]} {[ "color" := VStr "blue" ]}
           {[ "identifier" := VStr "content" ]}).
  - vm_compute. reflexivity.
  - vm_compute. reflexivity.
  - intros key Hkey. apply lookup_singleton_is_Some in Hkey as <-.
    split; vm_compute; reflexivity.
Defined.

Lemma returned_descriptor_is_valid_witness :
  <["name" := VStr "my-plugin/highlight"]> highlight
  = spread_name (VStr "my-plugin/highlight") highlight
  /\ exists n tag title,
       getp (<["name" := VStr "my-plugin/highlight"]> highlight) "name" = VStr n
       /\ Regex.lang name_pattern n
       /\ getFormatType (registry w0) n = None
       /\ getp (<["name" := VStr "my-plugin/highlight"]> highlight) "tagName"
          = VStr tag
       /\ tag <> EmptyString
       /\ ((getp (<["name" := VStr "my-plugin/highlight"]> highlight) "className"
            = VNull
            /\ getFormatTypeForBareElement (registry w0) tag = None)
           \/ exists cn,
                getp (<["name" := VStr "my-plugin/highlight"]> highlight)
                  "className" = VStr cn
                /\ Regex.lang class_pattern cn
                /\ getFormatTypeForClassName (registry w0) cn = None)
       /\ <["name" := VStr "my-plugin/highlight"]> highlight !! "title"
          = Some (VStr title)
       /\ title <> EmptyString
       /\ (<["name" := VStr "my-plugin/highlight"]> highlight !! "keywords" = None
           \/ exists v len,
                <["name" := VStr "my-plugin/highlight"]> highlight !! "keywords"
                = Some v
                /\ length_of v = Some len /\ gt3 len = false).
Proof.
  apply (returned_descriptor_is_valid (VStr "my-plugin/highlight") highlight
           (<["name" := VStr "my-plugin/highlight"]> highlight) w0
           (committed (VStr "my-plugin/highlight")
              (<["name" := VStr "my-plugin/highlight"]> highlight) w0)).
  vm_compute. reflexivity.
Defined.

Lemma filter_installed_on_success_witness :
  (exists n, VStr "core/bold" = VStr n /\ Regex.lang name_pattern n)
  /\ memos (committed (VStr "core/bold") (<["name" := VStr "core/bold"]> bold) w0)
       !! length (memos w0) = Some []
  /\ filters (committed (VStr "core/bold") (<["name" := VStr "core/bold"]> bold) w0)
     = filters w0
       ++ (if truthy (getp (<["name" := VStr "core/bold"]> bold)
                        "__experimentalCreatePrepareEditableTree")
           then [Filter "experimentalRichText" (VStr "core/bold")
                   (<["name" := VStr "core/bold"]> bold) (length (memos w0))]
           else []).
Proof.
  apply (filter_installed_on_success (VStr "core/bold") bold
           (<["name" := VStr "core/bold"]> bold) w0).
  - vm_compute. reflexivity.
  - vm_compute. reflexivity.
  - intros flt Hin. apply elem_of_nil in Hin. contradiction.
Defined.

Lemma missing_field_rejected_witness :
  registerFormatType (VStr "my-plugin/bare") ∅ w0
    = (Returned None, logged msg_tag_name w0)
  /\ registerFormatType (VStr "my-plugin/bare") {[ "tagName" := VStr "b" ]} w0
     = (Returned None, logged msg_class_type w0)
  /\ registerFormatType (VStr "my-plugin/bare")
       {[ "tagName" := VStr "b"; "className" := VNull ]} w0
     = (Returned None,
        logged (msg_title
                  (getp (spread_name (VStr "my-plugin/bare")
                           {[ "tagName" := VStr "b"; "className" := VNull ]})
                     "name")) w0).
Proof.
  split; [ | split].
  - apply (missing_field_rejected (VStr "my-plugin/bare") ∅ w0);
      vm_compute; reflexivity.
  - apply (missing_field_rejected (VStr "my-plugin/bare")
             {[ "tagName" := VStr "b" ]} w0); vm_compute; reflexivity.
  - apply (missing_field_rejected (VStr "my-plugin/bare")
             {[ "tagName" := VStr "b"; "className" := VNull ]} w0);
      vm_compute; reflexivity.
Defined.

Lemma registration_is_permanent_witness :
  registry
    (exec (Register (VStr "my-plugin/highlight") strong)
       (committed (VStr "my-plugin/highlight")
          (<["name" := VStr "my-plugin/highlight"]> highlight) w0))
    !! "my-plugin/highlight"
  = Some (<["name" := VStr "my-plugin/highlight"]> highlight).
Proof.
  apply (registration_is_permanent
           (Register (VStr "my-plugin/highlight") strong)
           (committed (VStr "my-plugin/highlight")
              (<["name" := VStr "my-plugin/highlight"]> highlight) w0)
           "my-plugin/highlight"
           (<["name" := VStr "my-plugin/highlight"]> highlight)).
  vm_compute. reflexivity.
Defined.

Lemma arrays_never_change_witness :
  heap (exec (Build 0 (Some 1) 8)
          (run [Register (VStr "core/bold") bold; Build 0 None 7] w0)) !! 1
  = Some [7].
Proof.
  apply (arrays_never_change (Build 0 (Some 1) 8)
           (run [Register (VStr "core/bold") bold; Build 0 None 7] w0) 1 [7]).
  vm_compute. reflexivity.
Defined.

Lemma build_chain_composes_witness :
  exists final w1,
    build_chain [(0, 7); (1, 8)] None
      (run [Register (VStr "core/bold") bold;
            Register (VStr "core/italic") italic]
         (init_world (∅ : gmap string obj)))
    = (Returned final, w1)
    /\ stack_contents (heap w1) final = Some [(0, 7); (1, 8)].*2
    /\ exists w2, build_chain [(0, 7); (1, 8)] None w1 = (Returned final, w2)
                  /\ heap w2 = heap w1.
Proof.
  apply (build_chain_composes
           [Register (VStr "core/bold") bold;
            Register (VStr "core/italic") italic]
           (∅ : gmap string obj) [(0, 7); (1, 8)]).
  intros m f Hin.
  apply elem_of_cons in Hin as [[= -> ->] | Hin]; [vm_compute; lia | ].
  apply list_elem_of_singleton in Hin as [= -> ->]. vm_compute. lia.
Defined.

Lemma cache_size_bounded_witness :
  length [(None, 7, 1) : memo_key * nat]
  <= length (List.filter (calls_builder 0)
               [Register (VStr "core/bold") bold; Build 0 None 7; Build 0 None 7]).
Proof.
  apply (cache_size_bounded
           [Register (VStr "core/bold") bold; Build 0 None 7; Build 0 None 7]
           (∅ : gmap string obj) 0 [(None, 7, 1)]).
  vm_compute. reflexivity.
Defined.

